(** * CodeAnalyzerBackend: the AI-response parser and the score blending

    A shallow embedding of [parse_ai_response] (src/ai_agent.py) and of the
    scoring code of src/main.py ([analyze_code_quality] and the blending
    step of [analyze_github_repo]).

    A Python [str] is a sequence of Unicode code points and is modelled as
    [list N].  The regular expressions of the source are written as terms
    of a small pattern language and run by a backtracking matcher that
    follows the priorities of CPython's [re] module: alternatives left to
    right, greedy repeats longest first, lazy repeats shortest first,
    leftmost match for [re.search], non-overlapping matches for
    [re.findall]. *)

From Stdlib Require Import ZArith NArith List String Ascii Lia Bool.
From Stdlib Require Import Floats.SpecFloat.
From stdpp Require Import base option list strings gmap.

(** ** Unicode tables used by [re] and [str] *)

Module Unicode.
Local Open Scope N_scope.

(** The code points of an ASCII literal. *)
Fixpoint codes (s : string) : list N :=
  match s with
  | EmptyString => []
  | String a s' => N_of_ascii a :: codes s'
  end.

(** The zero digit of every block of category Nd (Unicode 14.0); each
    block holds the ten digits 0..9 in order. *)
Definition nd_zero : list N :=
  [48; 1632; 1776; 1984; 2406; 2534; 2662; 2790; 2918; 3046; 3174; 3302;
   3430; 3558; 3664; 3792; 3872; 4160; 4240; 6112; 6160; 6470; 6608; 6784;
   6800; 6992; 7088; 7232; 7248; 42528; 43216; 43264; 43472; 43504; 43600;
   44016; 65296; 66720; 68912; 69734; 69872; 69942; 70096; 70384; 70736;
   70864; 71248; 71360; 71472; 71904; 72016; 72784; 73040; 73120; 92768;
   92864; 93008; 120782; 120792; 120802; 120812; 120822; 123200; 123632;
   125264; 130032].

Fixpoint digit_in (blocks : list N) (c : N) : option N :=
  match blocks with
  | [] => None
  | z :: rest =>
      if (z <=? c) && (c <? z + 10) then Some (c - z) else digit_in rest c
  end.

(** The decimal value of a code point of category Nd. *)
Definition digit_value (c : N) : option N := digit_in nd_zero c.

(** [\d] of a str pattern. *)
Definition is_digit (c : N) : bool :=
  match digit_value c with Some _ => true | None => false end.

(** [\s] of a str pattern, and [str.isspace] for one code point. *)
Definition is_space (c : N) : bool :=
  ((9 <=? c) && (c <=? 13)) || ((28 <=? c) && (c <=? 32))
  || (c =? 133) || (c =? 160) || (c =? 5760)
  || ((8192 <=? c) && (c <=? 8202))
  || (c =? 8232) || (c =? 8233) || (c =? 8239) || (c =? 8287)
  || (c =? 12288).

(** Case folding as far as IGNORECASE needs it for a pattern literal that
    is a lower-case ASCII letter or an uncased ASCII character: the
    letter's upper case, and the four letters the [re] documentation
    names (U+0130, U+0131 for i, U+017F for s, U+212A for k). *)
Definition fold_ascii (c : N) : N :=
  if (65 <=? c) && (c <=? 90) then c + 32
  else if (c =? 304) || (c =? 305) then 105
  else if c =? 383 then 115
  else if c =? 8490 then 107
  else c.
End Unicode.

(** ** The pattern language and its backtracking matcher *)

Module Re.
Import Unicode.

(** One-character items. *)
Inductive cclass : Type :=
| CAny                      (* .  under DOTALL *)
| CDigit                    (* \d *)
| CSpace                    (* \s *)
| CLit (c : N)              (* a literal *)
| CLitI (c : N)             (* a literal under IGNORECASE *)
| CSet (l : list N)         (* [...] *)
| CNotSet (l : list N).     (* [^...] *)

Definition in_set (l : list N) (c : N) : bool := existsb (N.eqb c) l.

Definition cmatch (cc : cclass) (c : N) : bool :=
  match cc with
  | CAny => true
  | CDigit => is_digit c
  | CSpace => is_space c
  | CLit p => N.eqb c p
  | CLitI p => N.eqb (fold_ascii c) p
  | CSet l => in_set l c
  | CNotSet l => negb (in_set l c)
  end.

Inductive regex : Type :=
| Eps
| Chr (cc : cclass)
| Cat (r1 r2 : regex)
| Alt (r1 r2 : regex)                                 (* r1|r2 *)
| Rep (greedy : bool) (lo : nat) (hi : option nat) (cc : cclass)
                                                      (* cc{lo,hi} and cc{lo,hi}? *)
| UpTo (n : nat) (r : regex)                          (* (?:r){0,n} *)
| Grp (r : regex)                                     (* (r), group 1 *)
| Ahead (r : regex)                                   (* (?=r) *)
| EndZ.                                               (* \Z *)

Definition more (hi : option nat) : bool :=
  match hi with Some O => false | _ => true end.

Definition less (hi : option nat) : option nat :=
  match hi with Some n => Some (pred n) | None => None end.

(** What a match has consumed, given where it began and what is left. *)
Definition consumed (s rest : list N) : list N :=
  take (length s - length rest) s.

Section Matcher.
Context {A : Type}.

Definition or_else (x : option A) (y : option A) : option A :=
  match x with Some a => Some a | None => y end.

(** [cc{lo,hi}]: as many as possible first, then one fewer, ... *)
Fixpoint rep_greedy (cc : cclass) (lo : nat) (hi : option nat)
    (s : list N) (k : list N -> option A) : option A :=
  let stop := match lo with O => k s | S _ => None end in
  match s with
  | c :: s' =>
      if cmatch cc c && more hi
      then or_else (rep_greedy cc (pred lo) (less hi) s' k) stop
      else stop
  | [] => stop
  end.

(** [cc{lo,hi}?]: as few as possible first, then one more, ... *)
Fixpoint rep_lazy (cc : cclass) (lo : nat) (hi : option nat)
    (s : list N) (k : list N -> option A) : option A :=
  let step :=
    match s with
    | c :: s' =>
        if cmatch cc c && more hi
        then rep_lazy cc (pred lo) (less hi) s' k
        else None
    | [] => None
    end in
  match lo with
  | O => or_else (k s) step
  | S _ => step
  end.
End Matcher.

(** [rmatch r s g k]: match [r] at the head of [s] with group 1 holding
    [g], and hand what is left to the continuation [k]; a continuation
    that fails makes the matcher backtrack. *)
Fixpoint rmatch {A : Type} (r : regex) (s : list N) (g : option (list N))
    (k : list N -> option (list N) -> option A) : option A :=
  match r with
  | Eps => k s g
  | Chr cc =>
      match s with
      | c :: s' => if cmatch cc c then k s' g else None
      | [] => None
      end
  | Cat r1 r2 => rmatch r1 s g (fun s1 g1 => rmatch r2 s1 g1 k)
  | Alt r1 r2 => or_else (rmatch r1 s g k) (rmatch r2 s g k)
  | Rep true lo hi cc => rep_greedy cc lo hi s (fun s' => k s' g)
  | Rep false lo hi cc => rep_lazy cc lo hi s (fun s' => k s' g)
  | UpTo n r1 =>
      (fix upto (n : nat) (s : list N) (g : option (list N)) : option A :=
         match n with
         | O => k s g
         | S n' =>
             or_else (rmatch r1 s g (fun s1 g1 => upto n' s1 g1)) (k s g)
         end) n s g
  | Grp r1 => rmatch r1 s g (fun s1 _ => k s1 (Some (consumed s s1)))
  | Ahead r1 =>
      match rmatch r1 s g (fun _ g1 => Some g1) with
      | Some g1 => k s g1
      | None => None
      end
  | EndZ =>
      match s with
      | [] => k [] g
      | _ :: _ => None
      end
  end.

(** A match object: the whole match, group 1, and the text after it. *)
Record rmatch_result : Type := MatchObj {
  m_whole : list N;
  m_group : option (list N);
  m_rest : list N
}.

Definition match_here (r : regex) (s : list N) : option rmatch_result :=
  rmatch r s None (fun rest g => Some (MatchObj (consumed s rest) g rest)).

(** [re.search]: the match at the leftmost position that has one. *)
Fixpoint search (r : regex) (s : list N) : option rmatch_result :=
  match match_here r s with
  | Some m => Some m
  | None =>
      match s with
      | [] => None
      | _ :: s' => search r s'
      end
  end.

(** What [re.findall] reports for one match: group 1 when the pattern has
    a group, the whole match otherwise. *)
Definition reported (grouped : bool) (m : rmatch_result) : list N :=
  if grouped then default [] (m_group m) else m_whole m.

(** [re.findall]: scan left to right; [skip] counts the code points that
    still belong to the match found last, where no match may begin.  After
    an empty match the scan goes on at the next code point; the patterns
    of the parser all consume at least one code point, so that case does
    not arise for them. *)
Fixpoint scan (grouped : bool) (r : regex) (skip : nat) (s : list N)
    : list (list N) :=
  match skip with
  | S n =>
      match s with
      | [] => []
      | _ :: s' => scan grouped r n s'
      end
  | O =>
      match match_here r s with
      | Some m =>
          reported grouped m ::
            match s with
            | [] => []
            | _ :: s' => scan grouped r (pred (length (m_whole m))) s'
            end
      | None =>
          match s with
          | [] => []
          | _ :: s' => scan grouped r 0 s'
          end
      end
  end.

Definition findall (grouped : bool) (r : regex) (s : list N)
    : list (list N) :=
  scan grouped r 0 s.

(** A literal string of the pattern under IGNORECASE. *)
Fixpoint lit_i (w : list N) : regex :=
  match w with
  | [] => Eps
  | c :: w' => Cat (Chr (CLitI c)) (lit_i w')
  end.
End Re.

(** ** Python values, exceptions and the built-ins the parser calls *)

Module Py.
Import Unicode.

Inductive pyval : Type :=
| PyNone
| PyInt (z : Z)
| PyStr (s : list N)
| PyList (l : list (list N)).

Inductive exn : Type :=
| TypeError (msg : list N)
| ValueError (msg : list N)
| OverflowError (msg : list N).

(** [str(e)] *)
Definition exn_str (e : exn) : list N :=
  match e with
  | TypeError msg => msg
  | ValueError msg => msg
  | OverflowError msg => msg
  end.

(** A computation that returns or raises. *)
Inductive res (A : Type) : Type :=
| Ok (a : A)
| Raise (e : exn).
Arguments Ok {A} a.
Arguments Raise {A} e.

#[global] Instance res_ret : MRet res := fun A a => Ok a.
#[global] Instance res_bind : MBind res := fun A B f m =>
  match m with Ok a => f a | Raise e => Raise e end.

Definition type_name (v : pyval) : list N :=
  match v with
  | PyNone => codes "NoneType"
  | PyInt _ => codes "int"
  | PyStr _ => codes "str"
  | PyList _ => codes "list"
  end.

(** Truth value of an object, with [None] for a missing key of
    [dict.get]. *)
Definition truthy (v : pyval) : bool :=
  match v with
  | PyNone => false
  | PyInt z => negb (z =? 0)%Z
  | PyStr s => match s with [] => false | _ => true end
  | PyList l => match l with [] => false | _ => true end
  end.

Definition get (d : gmap string pyval) (key : string) : pyval :=
  default PyNone (d !! key).

(** [str.strip()] *)
Fixpoint lstrip (s : list N) : list N :=
  match s with
  | c :: s' => if is_space c then lstrip s' else s
  | [] => []
  end.

Definition rstrip (s : list N) : list N := rev (lstrip (rev s)).

Definition strip (s : list N) : list N := rstrip (lstrip s).

(** [sep.join(l)] *)
Fixpoint join (sep : list N) (l : list (list N)) : list N :=
  match l with
  | [] => []
  | [x] => x
  | x :: rest => x ++ sep ++ join sep rest
  end.

(** The digits of an integer literal: decimal digits of any script,
    single underscores between digits. *)
Fixpoint int_digits (acc : Z) (after_digit : bool) (s : list N)
    : option Z :=
  match s with
  | [] => if after_digit then Some acc else None
  | c :: s' =>
      match digit_value c with
      | Some d => int_digits (10 * acc + Z.of_N d) true s'
      | None =>
          if (c =? 95)%N && after_digit then int_digits acc false s'
          else None
      end
  end.

(** [int(s)] for a str: surrounding whitespace and a sign are allowed;
    anything else raises ValueError (its message is abridged here: the
    caller drops it).  CPython also refuses literals of more than 4300
    digits; the parser converts at most three. *)
Definition int_of_str (s : list N) : res Z :=
  let bad := Raise (ValueError (codes "invalid literal for int() with base 10")) in
  match strip s with
  | 43%N :: d => match int_digits 0 false d with Some z => Ok z | None => bad end
  | 45%N :: d => match int_digits 0 false d with Some z => Ok (- z)%Z | None => bad end
  | d => match int_digits 0 false d with Some z => Ok z | None => bad end
  end.

(** [int(match.group(1))]: group 1 is [None] when it took no part in the
    match. *)
Definition int_of_group (g : option (list N)) : res Z :=
  match g with
  | Some s => int_of_str s
  | None =>
      Raise (TypeError (codes
        "int() argument must be a string, a bytes-like object or a real number, not 'NoneType'"))
  end.

(** [re.search] and [re.findall] refuse a subject that is not a str. *)
Definition subject (v : pyval) : res (list N) :=
  match v with
  | PyStr s => Ok s
  | _ =>
      Raise (TypeError
        (codes "expected string or bytes-like object, got '"
           ++ type_name v ++ codes "'"))
  end.

Definition re_search (r : Re.regex) (v : pyval)
    : res (option Re.rmatch_result) :=
  s ← subject v; mret (Re.search r s).

Definition re_findall (grouped : bool) (r : Re.regex) (v : pyval)
    : res (list (list N)) :=
  s ← subject v; mret (Re.findall grouped r s).

(** [s.rstrip(ch)] for a single character *)
Fixpoint lstrip_char (ch : N) (s : list N) : list N :=
  match s with
  | c :: s' => if (c =? ch)%N then lstrip_char ch s' else s
  | [] => []
  end.

Definition rstrip_char (ch : N) (s : list N) : list N :=
  rev (lstrip_char ch (rev s)).

(** [s.split(sep)] for a single-character separator: the empty str gives
    one empty part. *)
Fixpoint split (sep : N) (s : list N) : list (list N) :=
  match s with
  | [] => [[]]
  | c :: s' =>
      if (c =? sep)%N then [] :: split sep s'
      else match split sep s' with
           | part :: parts => (c :: part) :: parts
           | [] => [[c]]
           end
  end.

(** [l.index(x)], [None] standing for its ValueError. *)
Fixpoint index_of (x : list N) (l : list (list N)) : option nat :=
  match l with
  | [] => None
  | y :: l' => if decide (y = x) then Some O else S <$> index_of x l'
  end.

(** [str(z)] of an int. *)
Fixpoint uint_codes (u : Decimal.uint) : list N :=
  match u with
  | Decimal.Nil => []
  | Decimal.D0 u' => 48%N :: uint_codes u'
  | Decimal.D1 u' => 49%N :: uint_codes u'
  | Decimal.D2 u' => 50%N :: uint_codes u'
  | Decimal.D3 u' => 51%N :: uint_codes u'
  | Decimal.D4 u' => 52%N :: uint_codes u'
  | Decimal.D5 u' => 53%N :: uint_codes u'
  | Decimal.D6 u' => 54%N :: uint_codes u'
  | Decimal.D7 u' => 55%N :: uint_codes u'
  | Decimal.D8 u' => 56%N :: uint_codes u'
  | Decimal.D9 u' => 57%N :: uint_codes u'
  end.

Definition str_of_int (z : Z) : list N :=
  match z with
  | Z0 => [48%N]
  | Zpos p => uint_codes (Pos.to_uint p)
  | Zneg p => 45%N :: uint_codes (Pos.to_uint p)
  end.
End Py.

(** ** src/ai_agent.py: [parse_ai_response] *)

Module AiAgent.
Import Unicode Re Py.

Fixpoint seq (rs : list regex) : regex :=
  match rs with
  | [] => Eps
  | [r] => r
  | r :: rest => Cat r (seq rest)
  end.

Definition digits_1_3 : regex := Rep true 1 (Some 3) CDigit.   (* \d{1,3} *)
Definition spaces : regex := Rep true 0 None CSpace.           (* \s* *)
Definition opt_colon : regex := Rep true 0 (Some 1) (CLitI 58). (* :? *)

(** The five patterns of [score_patterns], compiled with IGNORECASE. *)
Definition n_of_100 : regex :=          (* (\d{1,3})\s*\/\s*100 *)
  seq [Grp digits_1_3; spaces; Chr (CLitI 47); spaces; lit_i (codes "100")].
Definition n_out_of_100 : regex :=      (* (\d{1,3})\s*out of\s*100 *)
  seq [Grp digits_1_3; spaces; lit_i (codes "out of"); spaces;
       lit_i (codes "100")].
Definition score_n : regex :=           (* score:?\s*(\d{1,3}) *)
  seq [lit_i (codes "score"); opt_colon; spaces; Grp digits_1_3].
Definition rating_n : regex :=          (* rating:?\s*(\d{1,3}) *)
  seq [lit_i (codes "rating"); opt_colon; spaces; Grp digits_1_3].
Definition quality_n : regex :=         (* quality:?\s*(\d{1,3}) *)
  seq [lit_i (codes "quality"); opt_colon; spaces; Grp digits_1_3].

Definition score_patterns : list regex :=
  [n_of_100; n_out_of_100; score_n; rating_n; quality_n].

(** The look-ahead that ends an item: the next marker, the end of the
    text, or an empty line. *)
Definition item_end (marker : regex) : regex :=
  Ahead (Alt (Cat marker spaces)
             (Alt EndZ (Cat (Chr (CLit 10)) (Chr (CLit 10))))).

(** [\d+\.\s*(.*?)(?=\d+\.\s*|\Z|\n\n)], DOTALL *)
Definition numbered_marker : regex :=
  Cat (Rep true 1 None CDigit) (Chr (CLit 46)).
Definition numbered_pattern : regex :=
  seq [numbered_marker; spaces; Grp (Rep false 0 None CAny);
       item_end numbered_marker].

(** [[•\-\*]\s*(.*?)(?=[•\-\*]\s*|\Z|\n\n)], DOTALL *)
Definition bullet_marker : regex := Chr (CSet [8226%N; 45%N; 42%N]).
Definition bullet_pattern : regex :=
  seq [bullet_marker; spaces; Grp (Rep false 0 None CAny);
       item_end bullet_marker].

Definition terminators : list N := [46%N; 33%N; 63%N].   (* . ! ? *)

(** One sentence tail: [[^.!?]*[.!?]] *)
Definition sentence : regex :=
  Cat (Rep true 0 None (CNotSet terminators)) (Chr (CSet terminators)).

(** [(?i)(?:{keyword}[^.!?]*[.!?](?:[^.!?]*[.!?]){0,3})]; the keywords
    of the source hold letters and spaces only, so the interpolated
    keyword is a literal. *)
Definition section_pattern (keyword : list N) : regex :=
  seq [lit_i keyword; sentence; UpTo 3 sentence].

Definition sections : list (string * list (list N)) :=
  [ ("architecture_analysis"%string,
      [codes "architecture"; codes "structure"; codes "organization";
       codes "design"]);
    ("performance_analysis"%string,
      [codes "performance"; codes "optimization"; codes "speed";
       codes "efficiency"]);
    ("security_analysis"%string,
      [codes "security"; codes "vulnerability"; codes "risk";
       codes "protection"]);
    ("best_practices_analysis"%string,
      [codes "best practice"; codes "convention"; codes "standard";
       codes "pattern"]) ].

(** The dictionary the body starts from. *)
Definition initial_result (ai_content : pyval) : gmap string pyval :=
  <["overall_score"%string := PyInt 0]>
  (<["recommendations"%string := PyList []]>
  (<["architecture_analysis"%string := PyStr []]>
  (<["performance_analysis"%string := PyStr []]>
  (<["security_analysis"%string := PyStr []]>
  (<["best_practices_analysis"%string := PyStr []]>
  (<["raw_response"%string := ai_content]> ∅)))))).

(** The loop over [score_patterns]: the first pattern whose first match
    holds a number of 0..100 sets the score and ends the loop. *)
Fixpoint score_loop (patterns : list regex) (ai_content : pyval)
    (result : gmap string pyval) : res (gmap string pyval) :=
  match patterns with
  | [] => Ok result
  | pattern :: later =>
      m ← re_search pattern ai_content;
      match m with
      | None => score_loop later ai_content result
      | Some mo =>
          match int_of_group (m_group mo) with
          | Ok score =>
              if (0 <=? score)%Z && (score <=? 100)%Z
              then Ok (<["overall_score"%string := PyInt score]> result)
              else score_loop later ai_content result
          | Raise (ValueError _) => score_loop later ai_content result
          | Raise e => Raise e
          end
      end
  end.

(** [[rec.strip() for rec in matches if rec.strip()]] *)
Definition stripped (matches : list (list N)) : list (list N) :=
  map strip (filter (fun rec => strip rec ≠ []) matches).

Definition extend_if_any (recommendations matches : list (list N))
    : list (list N) :=
  match matches with
  | [] => recommendations
  | _ :: _ => recommendations ++ stripped matches
  end.

Definition recommendations_step (ai_content : pyval)
    (result : gmap string pyval) : res (gmap string pyval) :=
  let recommendations := [] in
  numbered_matches ← re_findall true numbered_pattern ai_content;
  let recommendations := extend_if_any recommendations numbered_matches in
  bullet_matches ← re_findall true bullet_pattern ai_content;
  let recommendations := extend_if_any recommendations bullet_matches in
  match recommendations with
  | [] => Ok result
  | _ :: _ =>
      Ok (<["recommendations"%string := PyList (take 10 recommendations)]>
            result)
  end.

(** The inner loop over the keywords of one section. *)
Fixpoint keyword_loop (section_key : string) (keywords : list (list N))
    (ai_content : pyval) (result : gmap string pyval)
    : res (gmap string pyval) :=
  match keywords with
  | [] => Ok result
  | keyword :: later =>
      matches ← re_findall false (section_pattern keyword) ai_content;
      match matches with
      | [] => keyword_loop section_key later ai_content result
      | _ :: _ => Ok (<[section_key := PyStr (join [32%N] matches)]> result)
      end
  end.

Fixpoint sections_loop (items : list (string * list (list N)))
    (ai_content : pyval) (result : gmap string pyval)
    : res (gmap string pyval) :=
  match items with
  | [] => Ok result
  | (section_key, keywords) :: later =>
      result' ← keyword_loop section_key keywords ai_content result;
      sections_loop later ai_content result'
  end.

(** The body of the [try]. *)
Definition parse_body (ai_content : pyval) : res (gmap string pyval) :=
  let result := initial_result ai_content in
  result ← score_loop score_patterns ai_content result;
  result ← recommendations_step ai_content result;
  sections_loop sections ai_content result.

(** The dictionary of the [except] branch. *)
Definition error_result (e : exn) (ai_content : pyval)
    : gmap string pyval :=
  <["overall_score"%string := PyInt 0]>
  (<["recommendations"%string := PyList []]>
  (<["error"%string :=
       PyStr (codes "Error parsing AI response: " ++ exn_str e)]>
  (<["raw_response"%string := ai_content]> ∅))).

Definition parse_ai_response (ai_content : pyval) : gmap string pyval :=
  match parse_body ai_content with
  | Ok result => result
  | Raise e => error_result e ai_content
  end.

(** The score and the recommendations of a text, read off the result. *)
Definition extract_score (s : list N) : pyval :=
  get (parse_ai_response (PyStr s)) "overall_score".

Definition extract_recommendations (s : list N) : pyval :=
  get (parse_ai_response (PyStr s)) "recommendations".

Definition extract_section (section_key : string) (s : list N) : pyval :=
  get (parse_ai_response (PyStr s)) section_key.

(** *** [analyze_with_ai]

    The HTTP exchange is not part of the model: [ai_call] says how it
    went. *)
Inductive ai_call : Type :=
| CallRaised (msg : list N)
    (* the request, the JSON decoding or the walk through the JSON raised
       an exception [e] with [str(e) = msg] *)
| CallResponse (status_code : Z) (ai_content : pyval).
    (* the status, and what
       [result.get("choices", [{}])[0].get("message", {}).get("content", "")]
       found *)

Definition error_dict (message : list N) : gmap string pyval :=
  <["error"%string := PyStr message]>
  (<["recommendations"%string := PyList []]> ∅).

Definition analyze_with_ai (api_key : pyval) (call : ai_call)
    : gmap string pyval :=
  if negb (truthy api_key)
  then error_dict (codes "OpenRouter API key not configured")
  else
    match call with
    | CallRaised msg =>
        error_dict (codes "Error calling OpenRouter API: " ++ msg)
    | CallResponse status_code ai_content =>
        if negb (status_code =? 200)%Z
        then error_dict
               (codes "OpenRouter API error: " ++ str_of_int status_code)
        else parse_ai_response ai_content
    end.

(** *** [fetch_github_repo_data]: the owner and the name it reads off
    its argument, [repo_url.rstrip('/').split('/')[-2:]], unpacked into
    two names. *)
Definition owner_and_repo (repo_url : list N) : res (list N * list N) :=
  match rev (split 47 (rstrip_char 47 repo_url)) with
  | repo_name :: owner :: _ => Ok (owner, repo_name)
  | [_] =>
      Raise (ValueError
        (codes "not enough values to unpack (expected 2, got 1)"))
  | [] =>
      Raise (ValueError
        (codes "not enough values to unpack (expected 2, got 0)"))
  end.
End AiAgent.

(** ** src/main.py: the fallback score and its blending with the AI score *)

Module Main.
Import Unicode Py AiAgent.

(** Python floats are IEEE 754 binary64 numbers. *)
Definition prec : Z := 53.
Definition emax : Z := 1024.

(** An int becomes the nearest float, ties to even; an int beyond the
    largest float raises. *)
Definition float_of_int (z : Z) : res spec_float :=
  match binary_normalize prec emax z 0 false with
  | S754_infinity _ =>
      Raise (OverflowError (codes "int too large to convert to float"))
  | x => Ok x
  end.

(** The literals 0.7 and 0.3: the binary64 numbers nearest to 7/10 and
    3/10. *)
Definition lit_0_7 : spec_float := S754_finite false 6305039478318694 (-53).
Definition lit_0_3 : spec_float := S754_finite false 5404319552844595 (-54).

(** [int(x)] of a float: truncation towards zero; infinities and NaN
    raise. *)
Definition int_of_float (x : spec_float) : res Z :=
  match x with
  | S754_zero _ => Ok 0%Z
  | S754_finite s m e =>
      let magnitude :=
        if (0 <=? e)%Z then (Z.pos m * 2 ^ e)%Z
        else (Z.pos m / 2 ^ (- e))%Z in
      Ok (if s then - magnitude else magnitude)%Z
  | S754_infinity _ =>
      Raise (OverflowError (codes "cannot convert float infinity to integer"))
  | S754_nan =>
      Raise (ValueError (codes "cannot convert float NaN to integer"))
  end.

(** [int(0.7 * ai_score + 0.3 * quality_analysis["code_quality"])] *)
Definition weighted_average (ai_score code_quality : Z) : res Z :=
  x ← float_of_int ai_score;
  y ← float_of_int code_quality;
  int_of_float
    (SFadd prec emax (SFmul prec emax lit_0_7 x) (SFmul prec emax lit_0_3 y)).

Section Hash.
(** The built-in [hash] on str, salted per process. *)
Variable hash : list N -> Z.

Record quality : Type := Quality {
  code_quality : Z;
  bugs_found : Z
}.

(** [analyze_code_quality]; [file_counts_str] is [str(file_counts)]
    of the dictionary the directory walk has filled.  Python's [%]
    takes the sign of the divisor, as [Z.modulo] does. *)
Definition analyze_code_quality (repo_path file_counts_str : list N)
    : quality :=
  let score :=
    Z.min 100 (Z.max 60 (75 + hash file_counts_str mod 20))%Z in
  Quality score (Z.abs (hash repo_path mod 10)).
End Hash.

(** The part of [analyze_github_repo] that settles
    [quality_analysis["code_quality"]]: [api_key] is OPENROUTER_API_KEY,
    [ai_analysis] what [analyze_with_ai] returned.  Comparing a score that
    is not a number with 0 raises. *)
Definition blended_code_quality (api_key : pyval)
    (ai_analysis : gmap string pyval) (code_quality : Z) : res Z :=
  if truthy api_key then
    if negb (bool_decide (ai_analysis = ∅))
       && negb (truthy (get ai_analysis "error"))
       && truthy (get ai_analysis "recommendations")
    then
      match default (PyInt 0) (ai_analysis !! "overall_score"%string) with
      | PyInt ai_score =>
          if (0 <? ai_score)%Z then weighted_average ai_score code_quality
          else Ok code_quality
      | other =>
          Raise (TypeError
            (codes "'>' not supported between instances of '"
               ++ type_name other ++ codes "' and 'int'"))
      end
    else Ok code_quality
  else Ok code_quality.

(** *** The rest of src/main.py

    Besides the exceptions of [Py], this file meets IndexError and
    raises HTTPException. *)
Inductive error : Type :=
| Builtin (e : exn)
| IndexError (msg : list N)
| HTTPException (status_code : Z) (detail : list N).

Inductive attempt (A : Type) : Type :=
| Done (a : A)
| Failed (e : error).
Arguments Done {A} a.
Arguments Failed {A} e.

#[global] Instance attempt_ret : MRet attempt := fun A a => Done a.
#[global] Instance attempt_bind : MBind attempt := fun A B f m =>
  match m with Done a => f a | Failed e => Failed e end.

Definition lift {A : Type} (r : res A) : attempt A :=
  match r with Ok a => Done a | Raise e => Failed (Builtin e) end.

(** [l[i]], with Python's negative indices. *)
Definition item {A : Type} (l : list A) (i : Z) : attempt A :=
  let n := Z.of_nat (length l) in
  let j := if (i <? 0)%Z then (n + i)%Z else i in
  if (0 <=? j)%Z && (j <? n)%Z then
    match l !! Z.to_nat j with
    | Some a => Done a
    | None => Failed (IndexError (codes "list index out of range"))
    end
  else Failed (IndexError (codes "list index out of range")).

(** [extract_repo_info] *)
Definition extract_repo_info (repo_url : list N)
    : attempt (list N * list N) :=
  let parts := split 47 (rstrip_char 47 repo_url) in
  match index_of (codes "github.com") parts with
  | None => Failed (Builtin (ValueError (codes "Not a valid GitHub URL")))
  | Some i =>
      let owner_idx := (Z.of_nat i + 1)%Z in
      if (Z.of_nat (length parts) <=? owner_idx + 1)%Z
      then Failed (Builtin (ValueError
                     (codes "URL does not contain owner and repo")))
      else
        owner ← item parts owner_idx;
        repo ← item parts (owner_idx + 1)%Z;
        mret (owner, repo)
  end.

Definition generic_recommendations : list (list N) :=
  [ codes "Implement comprehensive unit tests to improve code coverage";
    codes "Add detailed documentation for public APIs and functions";
    codes "Consider using type hints to improve code readability and catch errors early";
    codes "Refactor large functions into smaller, more manageable pieces";
    codes "Implement consistent error handling throughout the codebase";
    codes "Add logging to help with debugging and monitoring";
    codes "Consider using a linter to enforce coding standards";
    codes "Review security practices, especially around user inputs and authentication";
    codes "Optimize database queries for better performance";
    codes "Implement CI/CD pipelines for automated testing and deployment" ].

(** The generic texts of [details]. *)
Definition generic_details : gmap string pyval :=
  <["code_structure"%string := PyStr (codes
      "The codebase has a clear structure but could benefit from more modularization. Consider breaking down large components into smaller, reusable ones.")]>
  (<["performance"%string := PyStr (codes
      "Performance is generally good, but there are opportunities for optimization in data fetching and rendering large lists.")]>
  (<["security"%string := PyStr (codes
      "Some potential security issues were found, including possible XSS vulnerabilities and insecure dependencies.")]>
  (<["best_practices"%string := PyStr (codes
      "The code mostly follows best practices, but there are inconsistencies in coding style and patterns across the codebase.")]>
   ∅))).

(** [d.get(key, "No data available")] *)
Definition get_or_no_data (d : gmap string pyval) (key : string) : pyval :=
  default (PyStr (codes "No data available")) (d !! key).

Definition ai_details (ai_analysis : gmap string pyval)
    : gmap string pyval :=
  <["code_structure"%string := get_or_no_data ai_analysis "architecture_analysis"]>
  (<["performance"%string := get_or_no_data ai_analysis "performance_analysis"]>
  (<["security"%string := get_or_no_data ai_analysis "security_analysis"]>
  (<["best_practices"%string :=
       get_or_no_data ai_analysis "best_practices_analysis"]> ∅))).

(** The dictionary [analyze_github_repo] returns. *)
Record report : Type := Report {
  repository_url : list N;
  report_code_quality : Z;
  report_bugs_found : Z;
  recommendations : pyval;
  details : gmap string pyval;
  ai_analysis : option (gmap string pyval)
}.

(** [ai_analysis and not ai_analysis.get("error")] *)
Definition ai_succeeded (ai_analysis : option (gmap string pyval)) : bool :=
  match ai_analysis with
  | Some d => negb (bool_decide (d = ∅)) && negb (truthy (get d "error"))
  | None => false
  end.

Section Repo.
(** The built-in [hash] on str, and [str(e)] of an HTTPException, which
    the web framework defines. *)
Variable hash : list N -> Z.
Variable http_exception_str : Z -> list N -> list N.

Definition error_str (e : error) : list N :=
  match e with
  | Builtin e' => exn_str e'
  | IndexError msg => msg
  | HTTPException status_code detail => http_exception_str status_code detail
  end.

(** [generate_recommendations]: five entries of the generic list, from
    the index the hash of the path gives, going round. *)
Fixpoint pick_from (seed : Z) (indices : list nat)
    : attempt (list (list N)) :=
  match indices with
  | [] => Done []
  | i :: later =>
      let idx :=
        ((seed + Z.of_nat i)
           mod Z.of_nat (length generic_recommendations))%Z in
      r ← item generic_recommendations idx;
      rest ← pick_from seed later;
      mret (r :: rest)
  end.

Definition generate_recommendations (repo_path repo_url : list N)
    : attempt (list (list N)) :=
  let num_recommendations := 5%nat in
  let seed := (hash repo_path mod 100)%Z in
  pick_from seed (List.seq 0 num_recommendations).

(** [analyze_github_repo].  [clone] is what [clone_repository] did: the
    path of the clone, or the HTTPException it raised; [file_counts_str]
    is [str(file_counts)] of the directory walk; [call] says how the
    exchange with the AI service went.  [fetch_github_repo_data] only
    feeds the prompt and never raises. *)
Definition analyze_github_repo (api_key : pyval) (repo_url : list N)
    (clone : attempt (list N)) (file_counts_str : list N) (call : ai_call)
    : attempt report :=
  let body : attempt report :=
    names ← extract_repo_info repo_url;
    repo_path ← clone;
    let quality_analysis :=
      analyze_code_quality hash repo_path file_counts_str in
    basic_recommendations ← generate_recommendations repo_path repo_url;
    let ai_analysis :=
      if truthy api_key then Some (analyze_with_ai api_key call) else None in
    let recommendations :=
      match ai_analysis with
      | Some d =>
          if negb (bool_decide (d = ∅))
             && negb (truthy (get d "error"))
             && truthy (get d "recommendations")
          then get d "recommendations"
          else PyList basic_recommendations
      | None => PyList basic_recommendations
      end in
    quality ←
      match ai_analysis with
      | Some d =>
          lift (blended_code_quality api_key d
                  (code_quality quality_analysis))
      | None => Done (code_quality quality_analysis)
      end;
    let details :=
      match ai_analysis with
      | Some d => if ai_succeeded ai_analysis then ai_details d
                  else generic_details
      | None => generic_details
      end in
    mret (Report repo_url quality (bugs_found quality_analysis)
            recommendations details ai_analysis) in
  match body with
  | Done r => Done r
  | Failed e =>
      Failed (HTTPException 500
                (codes "Error analyzing repository: " ++ error_str e))
  end.
End Repo.
End Main.

(** ** What the parser computes, stated without the dictionary *)

Module Spec.
Import Unicode Re Py AiAgent.

(** A pattern that binds group 1 on every way through it. *)
Fixpoint sets_group (r : regex) : bool :=
  match r with
  | Grp _ => true
  | Cat r1 r2 => sets_group r1 || sets_group r2
  | Alt r1 r2 => sets_group r1 && sets_group r2
  | _ => false
  end.

Definition in_range (z : Z) : bool := (0 <=? z)%Z && (z <=? 100)%Z.

(** The number held by the first match of a pattern. *)
Definition first_number (p : regex) (s : list N) : option Z :=
  match search p s with
  | Some mo =>
      match int_of_group (m_group mo) with
      | Ok z => Some z
      | Raise _ => None
      end
  | None => None
  end.

(** The score by pattern priority: the first pattern whose first match
    holds a number of 0..100 gives the score; 0 when there is none. *)
Fixpoint score_by_priority (patterns : list regex) (s : list N) : Z :=
  match patterns with
  | [] => 0
  | p :: later =>
      match first_number p s with
      | Some z => if in_range z then z else score_by_priority later s
      | None => score_by_priority later s
      end
  end.

(** Numbered items first, then bullet items, cut to ten. *)
Definition recommendations_of (s : list N) : list (list N) :=
  take 10 (stripped (findall true numbered_pattern s)
             ++ stripped (findall true bullet_pattern s)).

Definition excerpts (keyword s : list N) : list (list N) :=
  findall false (section_pattern keyword) s.

(** The text of a section: the excerpts of the first keyword that has
    any, joined by a space. *)
Fixpoint section_text (keywords : list (list N)) (s : list N) : list N :=
  match keywords with
  | [] => []
  | keyword :: later =>
      match excerpts keyword s with
      | [] => section_text later s
      | m :: ms => join [32%N] (m :: ms)
      end
  end.

Definition keywords_of (section_key : string) : list (list N) :=
  default [] (snd <$> List.find (fun it => String.eqb (fst it) section_key) sections).

(** The dictionary of the success path. *)
Definition result_of (s : list N) : gmap string pyval :=
  <["overall_score"%string := PyInt (score_by_priority score_patterns s)]>
  (<["recommendations"%string := PyList (recommendations_of s)]>
  (<["architecture_analysis"%string :=
       PyStr (section_text (keywords_of "architecture_analysis") s)]>
  (<["performance_analysis"%string :=
       PyStr (section_text (keywords_of "performance_analysis") s)]>
  (<["security_analysis"%string :=
       PyStr (section_text (keywords_of "security_analysis") s)]>
  (<["best_practices_analysis"%string :=
       PyStr (section_text (keywords_of "best_practices_analysis") s)]>
  (<["raw_response"%string := PyStr s]> ∅)))))).

Definition is_terminator (c : N) : bool := in_set terminators c.

(** Cut a text after its first sentence terminator. *)
Fixpoint cut_sentence (s : list N) : option (list N * list N) :=
  match s with
  | [] => None
  | c :: s' =>
      if is_terminator c then Some ([c], s')
      else match cut_sentence s' with
           | Some (a, rest) => Some (c :: a, rest)
           | None => None
           end
  end.

(** Cut at most [n] further sentences. *)
Fixpoint cut_sentences (n : nat) (s : list N) : list N * list N :=
  match n with
  | O => ([], s)
  | S n' =>
      match cut_sentence s with
      | Some (a, rest) =>
          let (more, rest') := cut_sentences n' rest in (a ++ more, rest')
      | None => ([], s)
      end
  end.

(** Cut a keyword, whatever its case, off the head of a text. *)
Fixpoint cut_keyword (keyword s : list N) : option (list N * list N) :=
  match keyword with
  | [] => Some ([], s)
  | p :: keyword' =>
      match s with
      | c :: s' =>
          if N.eqb (fold_ascii c) p then
            match cut_keyword keyword' s' with
            | Some (w, rest) => Some (c :: w, rest)
            | None => None
            end
          else None
      | [] => None
      end
  end.

(** The excerpt that begins at the head of a text. *)
Definition excerpt_at (keyword s : list N) : option (list N * list N) :=
  match cut_keyword keyword s with
  | Some (w, r0) =>
      match cut_sentence r0 with
      | Some (a, r1) =>
          let (more, rest) := cut_sentences 3 r1 in
          Some (w ++ a ++ more, rest)
      | None => None
      end
  | None => None
  end.

Definition terminator_count (t : list N) : nat :=
  length (List.filter is_terminator t).

(** The shape of one excerpt [m] for [keyword] in the text [s]: it lies
    in the text, begins with the keyword in any case, ends with a
    terminator, holds one to four terminators, and holds four unless
    the text after it has none left. *)
Definition excerpt_shape (keyword s m : list N) : Prop :=
  exists word tail before after : list N,
    m = word ++ tail
    /\ s = before ++ m ++ after
    /\ map fold_ascii word = keyword
    /\ (exists t c, tail = t ++ [c] /\ is_terminator c = true)
    /\ (1 <= terminator_count tail <= 4)%nat
    /\ (terminator_count tail = 4%nat \/ terminator_count after = 0%nat).

(** *** The section excerpt as the specification words it

    "For every occurrence of that keyword in the text the sentence
    containing that occurrence plus up to 3 following sentences",
    joined by a space. *)

(** The sentences of a text, each with its terminator; [cur] holds the
    sentence being read, last code point first. *)
Fixpoint sentences_from (cur s : list N) : list (list N) :=
  match s with
  | [] => match cur with [] => [] | _ :: _ => [rev cur] end
  | c :: s' =>
      if is_terminator c then rev (c :: cur) :: sentences_from [] s'
      else sentences_from (c :: cur) s'
  end.

(** The positions at which the keyword occurs, whatever its case. *)
Fixpoint occurrences_from (i : nat) (keyword s : list N) : list nat :=
  match s with
  | [] => []
  | _ :: s' =>
      match cut_keyword keyword s with
      | Some _ => i :: occurrences_from (S i) keyword s'
      | None => occurrences_from (S i) keyword s'
      end
  end.

(** The sentence holding position [i], and up to three after it. *)
Definition claimed_excerpt (s : list N) (i : nat) : list N :=
  concat (take 4 (drop (terminator_count (take i s)) (sentences_from [] s))).

Definition claimed_section (keyword s : list N) : list N :=
  join [32%N] (map (claimed_excerpt s) (occurrences_from 0 keyword s)).

(** *** Notions for the further properties *)

(** A pattern with a group somewhere in it. *)
Fixpoint has_group (r : regex) : bool :=
  match r with
  | Grp _ => true
  | Cat r1 r2 => has_group r1 || has_group r2
  | Alt r1 r2 => has_group r1 || has_group r2
  | UpTo _ r1 => has_group r1
  | Ahead r1 => has_group r1
  | _ => false
  end.

(** [x] occurs in [s] as a run of neighbouring code points. *)
Definition occurs_in (x s : list N) : Prop :=
  exists before after : list N, s = before ++ x ++ after.

Definition is_bullet (c : N) : bool := in_set [8226%N; 45%N; 42%N] c.
End Spec.

(** ** Facts about the matcher *)

Module ReFacts.
Import Unicode Re Spec.

Lemma rep_greedy_calls {A : Type} cc lo hi s (k : list N -> option A) a :
  rep_greedy cc lo hi s k = Some a ->
  exists s', k s' = Some a /\ s' `suffix_of` s.
Proof.
  revert lo hi. induction s as [|c s IH]; intros lo hi; simpl.
  - destruct lo; [eauto | discriminate].
  - destruct (cmatch cc c && more hi).
    + destruct (rep_greedy cc (pred lo) (less hi) s k) eqn:E; simpl.
      * intros [= <-]. apply IH in E as (s' & H & Hs).
        exists s'. split; [done | by apply suffix_cons_r].
      * destruct lo; [eauto | discriminate].
    + destruct lo; [eauto | discriminate].
Qed.

Lemma rep_lazy_calls {A : Type} cc lo hi s (k : list N -> option A) a :
  rep_lazy cc lo hi s k = Some a ->
  exists s', k s' = Some a /\ s' `suffix_of` s.
Proof.
  revert lo hi. induction s as [|c s IH]; intros lo hi; simpl.
  - destruct lo; [|discriminate]. destruct (k []) eqn:E; simpl; [|discriminate].
    intros [= <-]. eauto.
  - assert (Hstep :
      (if cmatch cc c && more hi then rep_lazy cc (pred lo) (less hi) s k
       else None) = Some a ->
      exists s', k s' = Some a /\ s' `suffix_of` c :: s).
    { destruct (cmatch cc c && more hi); [|discriminate].
      intros (s' & H & Hs)%IH. exists s'. split; [done | by apply suffix_cons_r]. }
    destruct lo; [|exact Hstep].
    destruct (k (c :: s)) eqn:E; simpl; [|exact Hstep].
    intros [= <-]. eauto.
Qed.

(** A match that succeeds has called its continuation on what is left of
    the text, and group 1 is bound there when the pattern binds it or it
    was bound before. *)
Lemma rmatch_calls (r : regex) :
  forall (A : Type) s g (k : list N -> option (list N) -> option A) a,
    rmatch r s g k = Some a ->
    exists s' g', k s' g' = Some a
      /\ s' `suffix_of` s
      /\ (is_Some g \/ sets_group r = true -> is_Some g').
Proof.
  induction r as [| cc | r1 IH1 r2 IH2 | r1 IH1 r2 IH2 | greedy lo hi cc
                  | n r1 IH1 | r1 IH1 | r1 IH1 |]; intros A s g k a; simpl.
  - intros H. exists s, g.
    split; [done|]. split; [done | intros [?|?]; [done | discriminate]].
  - destruct s as [|c s]; [discriminate|].
    destruct (cmatch cc c); [|discriminate].
    intros H. exists s, g. split; [done|].
    split; [by apply suffix_cons_r | intros [?|?]; [done | discriminate]].
  - intros H. apply IH1 in H as (s1 & g1 & H & Hs1 & Hg1).
    apply IH2 in H as (s2 & g2 & H & Hs2 & Hg2).
    exists s2, g2. split; [done|]. split; [by etrans|].
    intros [Hg | Hs]; apply Hg2.
    + left. apply Hg1. by left.
    + apply orb_true_iff in Hs as [Hs | Hs]; [left; apply Hg1; by right | by right].
  - destruct (rmatch r1 s g k) eqn:E; simpl.
    + intros [= <-]. apply IH1 in E as (s1 & g1 & H & Hs1 & Hg1).
      exists s1, g1. split; [done|]. split; [done|].
      intros [Hg | Hs]; apply Hg1; [by left|].
      apply andb_true_iff in Hs as [Hs _]. by right.
    + intros H. apply IH2 in H as (s1 & g1 & H & Hs1 & Hg1).
      exists s1, g1. split; [done|]. split; [done|].
      intros [Hg | Hs]; apply Hg1; [by left|].
      apply andb_true_iff in Hs as [_ Hs]. by right.
  - destruct greedy; intros H;
      [apply rep_greedy_calls in H as (s' & H & Hs)
      | apply rep_lazy_calls in H as (s' & H & Hs)];
      exists s', g;
      (split; [done|]; split; [done | intros [?|?]; [done | discriminate]]).
  - revert s g. induction n as [|n IHn]; intros s g.
    + intros H. exists s, g.
      split; [done|]. split; [done | intros [?|?]; [done | discriminate]].
    + match goal with |- or_else ?x _ = _ -> _ => destruct x eqn:E end; simpl.
      * intros [= <-]. apply IH1 in E as (s1 & g1 & H & Hs1 & Hg1).
        apply IHn in H as (s2 & g2 & H & Hs2 & Hg2).
        exists s2, g2. split; [done|]. split; [by etrans|].
        intros [Hg | Hs]; [|discriminate].
        apply Hg2. left. apply Hg1. by left.
      * intros H. exists s, g.
        split; [done|]. split; [done | intros [?|?]; [done | discriminate]].
  - intros H. apply IH1 in H as (s1 & g1 & H & Hs1 & _).
    exists s1, (Some (consumed s s1)). split; [done|]. split; [done | by intros _].
  - destruct (rmatch r1 s g (fun _ g1 => Some g1)) as [g1|] eqn:E; [|discriminate].
    intros H. apply IH1 in E as (s1 & g1' & [= ->] & _ & Hg1).
    exists s, g1. split; [done|]. split; [done|].
    intros [Hg | Hs]; [|discriminate]. apply Hg1. by left.
  - destruct s; [|discriminate]. intros H.
    exists [], g.
    split; [done|]. split; [done | intros [?|?]; [done | discriminate]].
Qed.

Lemma consumed_app (x rest : list N) : consumed (x ++ rest) rest = x.
Proof.
  unfold consumed. rewrite length_app.
  replace (length x + length rest - length rest)%nat with (length x) by lia.
  by rewrite take_app_length.
Qed.

(** A match object splits the text it was found at. *)
Lemma match_here_split r s mo :
  match_here r s = Some mo -> s = m_whole mo ++ m_rest mo.
Proof.
  intros H. apply rmatch_calls in H as (s' & g' & [= <-] & [x ->] & _).
  simpl. by rewrite consumed_app.
Qed.

Lemma match_here_group r s mo :
  sets_group r = true -> match_here r s = Some mo -> is_Some (m_group mo).
Proof.
  intros Hs H. apply rmatch_calls in H as (s' & g' & [= <-] & _ & Hg).
  simpl. apply Hg. by right.
Qed.

Lemma search_group r s mo :
  sets_group r = true -> search r s = Some mo -> is_Some (m_group mo).
Proof.
  intros Hs. induction s as [|c s IH]; simpl.
  - destruct (match_here r []) eqn:E; [|discriminate].
    intros [= <-]. by eapply match_here_group.
  - destruct (match_here r (c :: s)) eqn:E; [|exact IH].
    intros [= <-]. by eapply match_here_group.
Qed.

(** Every string [re.findall] reports comes from a match that begins
    somewhere in the text. *)
Lemma scan_elem grouped r skip s x :
  x ∈ scan grouped r skip s ->
  exists before s' mo,
    s = before ++ s' /\ match_here r s' = Some mo /\ x = reported grouped mo.
Proof.
  revert skip. induction s as [|c s IH]; intros skip; simpl.
  - destruct skip; [|by intros ?%elem_of_nil].
    destruct (match_here r []) eqn:E; [|by intros ?%elem_of_nil].
    intros ->%list_elem_of_singleton. by exists [], [], r0.
  - assert (Hrec : forall n, x ∈ scan grouped r n s ->
      exists before s' mo, c :: s = before ++ s'
        /\ match_here r s' = Some mo /\ x = reported grouped mo).
    { intros n (before & s' & mo & -> & H1 & H2)%IH.
      by exists (c :: before), s', mo. }
    destruct skip; [|apply Hrec].
    destruct (match_here r (c :: s)) eqn:E; [|apply Hrec].
    intros [-> | H]%elem_of_cons; [|by eapply Hrec].
    by exists [], (c :: s), r0.
Qed.

Lemma search_found r s mo :
  search r s = Some mo ->
  exists before, s = before ++ m_whole mo ++ m_rest mo
    /\ match_here r (m_whole mo ++ m_rest mo) = Some mo.
Proof.
  induction s as [|c s IH]; simpl.
  - destruct (match_here r []) eqn:E; [|discriminate].
    intros [= <-]. exists []. by rewrite <- (match_here_split _ _ _ E).
  - destruct (match_here r (c :: s)) eqn:E.
    + intros [= <-]. exists []. by rewrite <- (match_here_split _ _ _ E).
    + intros (before & -> & H)%IH. by exists (c :: before).
Qed.

Lemma scan_skip grouped r x rest :
  scan grouped r (length x) (x ++ rest) = scan grouped r 0 rest.
Proof. induction x as [|c x IH]; [done | exact IH]. Qed.

(** [re.findall] is [re.search] again and again, each time in the text
    after the match found last. *)
Lemma scan_search grouped r s :
  scan grouped r 0 s =
    match search r s with
    | None => []
    | Some mo =>
        reported grouped mo ::
          match m_whole mo with
          | [] => match m_rest mo with
                  | [] => []
                  | _ :: t => scan grouped r 0 t
                  end
          | _ :: _ => scan grouped r 0 (m_rest mo)
          end
    end.
Proof.
  induction s as [|c s IH]; simpl.
  - destruct (match_here r []) as [mo|] eqn:E; [|done].
    pose proof (match_here_split _ _ _ E) as Hs.
    symmetry in Hs. apply app_eq_nil in Hs as [-> ->]. done.
  - destruct (match_here r (c :: s)) as [mo|] eqn:E; [|exact IH].
    pose proof (match_here_split _ _ _ E) as Hs. f_equal.
    destruct (m_whole mo) as [|d w]; simpl in *.
    + by rewrite <- Hs.
    + injection Hs as -> ->. apply scan_skip.
Qed.
End ReFacts.

(** ** The section pattern is a sentence cutter *)

Module SectionFacts.
Import Unicode Re Py AiAgent Spec ReFacts.

#[local] Arguments in_set : simpl never.

Lemma or_else_None {A : Type} (x : option A) : or_else x None = x.
Proof. by destruct x. Qed.

Lemma terminator_count_app (x y : list N) :
  terminator_count (x ++ y) = (terminator_count x + terminator_count y)%nat.
Proof. unfold terminator_count. by rewrite List.filter_app, length_app. Qed.

Lemma rmatch_sentence {A : Type} s g
    (k : list N -> option (list N) -> option A) :
  rmatch sentence s g k =
    match cut_sentence s with
    | Some (_, rest) => k rest g
    | None => None
    end.
Proof.
  unfold sentence. simpl. induction s as [|c s IH]; simpl; [done|].
  unfold is_terminator. destruct (in_set terminators c) eqn:E; simpl.
  - done.
  - rewrite or_else_None, IH. by destruct (cut_sentence s) as [[? ?]|].
Qed.

Lemma rmatch_lit_i {A : Type} keyword s g
    (k : list N -> option (list N) -> option A) :
  rmatch (lit_i keyword) s g k =
    match cut_keyword keyword s with
    | Some (_, rest) => k rest g
    | None => None
    end.
Proof.
  revert s. induction keyword as [|p keyword IH]; intros s; simpl; [done|].
  destruct s as [|c s]; [done|].
  destruct (N.eqb (fold_ascii c) p); [|done].
  rewrite IH. by destruct (cut_keyword keyword s) as [[? ?]|].
Qed.

Lemma rmatch_cat {A : Type} r1 r2 s g
    (k : list N -> option (list N) -> option A) :
  rmatch (Cat r1 r2) s g k = rmatch r1 s g (fun s1 g1 => rmatch r2 s1 g1 k).
Proof. reflexivity. Qed.

Lemma rmatch_upto_S {A : Type} n r s g
    (k : list N -> option (list N) -> option A) :
  rmatch (UpTo (S n) r) s g k =
    or_else (rmatch r s g (fun s1 g1 => rmatch (UpTo n r) s1 g1 k)) (k s g).
Proof. reflexivity. Qed.

(** With a continuation that never fails, the bounded repeat takes as
    many sentences as there are, up to its bound. *)
Lemma rmatch_upto_sentence {A : Type} n s g
    (k : list N -> option (list N) -> option A) :
  (forall s' g', is_Some (k s' g')) ->
  rmatch (UpTo n sentence) s g k = k (snd (cut_sentences n s)) g.
Proof.
  intros Hk. revert s. induction n as [|n IH]; intros s; [done|].
  rewrite rmatch_upto_S, rmatch_sentence. cbn [cut_sentences].
  destruct (cut_sentence s) as [[a rest]|]; [|done].
  rewrite IH. destruct (cut_sentences n rest) as [more rest'] eqn:E.
  cbn [snd]. by destruct (Hk rest' g) as [x ->].
Qed.

Lemma cut_keyword_spec keyword s w rest :
  cut_keyword keyword s = Some (w, rest) ->
  s = w ++ rest /\ map fold_ascii w = keyword.
Proof.
  revert s w. induction keyword as [|p keyword IH]; intros s w; simpl.
  - by intros [= <- <-].
  - destruct s as [|c s]; [done|].
    destruct (N.eqb_spec (fold_ascii c) p) as [Hc|]; [|done].
    destruct (cut_keyword keyword s) as [[w' rest']|] eqn:E; [|done].
    intros [= <- <-]. apply IH in E as [-> <-]. simpl. by rewrite Hc.
Qed.

Lemma cut_sentence_spec s a rest :
  cut_sentence s = Some (a, rest) ->
  s = a ++ rest
  /\ (exists t c, a = t ++ [c] /\ is_terminator c = true)
  /\ terminator_count a = 1%nat.
Proof.
  revert a. induction s as [|c s IH]; intros a; simpl; [done|].
  destruct (is_terminator c) eqn:Hc.
  - intros [= <- <-]. split; [done|]. split; [by exists [], c|].
    unfold terminator_count. simpl. by rewrite Hc.
  - destruct (cut_sentence s) as [[a' rest']|] eqn:E; [|done].
    intros [= <- <-]. destruct (IH a' eq_refl) as (-> & (t & d & -> & Hd) & Hn).
    split; [done|]. split; [by exists (c :: t), d|].
    revert Hn. unfold terminator_count. simpl. by rewrite Hc.
Qed.

Lemma cut_sentence_None s :
  cut_sentence s = None -> terminator_count s = 0%nat.
Proof.
  induction s as [|c s IH]; simpl; [done|].
  destruct (is_terminator c) eqn:Hc; [done|].
  destruct (cut_sentence s) as [[? ?]|]; [done|].
  intros _. unfold terminator_count in *. simpl. rewrite Hc. by apply IH.
Qed.

Lemma cut_sentences_spec n s more rest :
  cut_sentences n s = (more, rest) ->
  s = more ++ rest
  /\ (more = [] \/ exists t c, more = t ++ [c] /\ is_terminator c = true)
  /\ (terminator_count more <= n)%nat
  /\ (terminator_count more = n \/ terminator_count rest = 0%nat).
Proof.
  revert s more. induction n as [|n IH]; intros s more; simpl.
  - intros [= <- <-]. split; [done|]. split; [by left|]. split; [done | by left].
  - destruct (cut_sentence s) as [[a r1]|] eqn:E.
    + destruct (cut_sentences n r1) as [more' rest'] eqn:E'.
      intros [= <- <-].
      apply cut_sentence_spec in E as (-> & (t & c & -> & Hc) & Ha).
      apply IH in E' as (-> & Hend & Hle & Hgreedy).
      split; [by rewrite <- !app_assoc|].
      split.
      { right. destruct Hend as [-> | (t' & c' & -> & Hc')].
        - exists t, c. by rewrite app_nil_r.
        - exists ((t ++ [c]) ++ t'), c'. by rewrite <- !app_assoc. }
      rewrite terminator_count_app, Ha. split; [lia|].
      destruct Hgreedy as [<- | ?]; [by left | by right].
    + intros [= <- <-]. split; [done|]. split; [by left|].
      split; [unfold terminator_count; simpl; lia|].
      right. by apply cut_sentence_None.
Qed.

(** The match of the section pattern at the head of a text. *)
Lemma match_here_section keyword s :
  match_here (section_pattern keyword) s =
    match excerpt_at keyword s with
    | Some (m, rest) => Some (MatchObj m None rest)
    | None => None
    end.
Proof.
  unfold match_here, section_pattern, excerpt_at. cbn [seq].
  rewrite rmatch_cat, rmatch_lit_i.
  destruct (cut_keyword keyword s) as [[w r0]|] eqn:Ew; [|done].
  rewrite rmatch_cat, rmatch_sentence.
  destruct (cut_sentence r0) as [[a r1]|] eqn:Ea; [|done].
  rewrite rmatch_upto_sentence by (intros; eexists; reflexivity).
  destruct (cut_sentences 3 r1) as [more rest] eqn:Em. cbn [snd].
  apply cut_keyword_spec in Ew as [-> _].
  apply cut_sentence_spec in Ea as (-> & _ & _).
  apply cut_sentences_spec in Em as (-> & _).
  do 2 f_equal.
  replace (w ++ (a ++ more ++ rest)) with ((w ++ a ++ more) ++ rest)
    by (by rewrite <- !app_assoc).
  by rewrite consumed_app.
Qed.

Lemma excerpt_at_shape keyword before s m rest :
  excerpt_at keyword s = Some (m, rest) ->
  s = m ++ rest /\ excerpt_shape keyword (before ++ s) m.
Proof.
  unfold excerpt_at.
  destruct (cut_keyword keyword s) as [[w r0]|] eqn:Ew; [|done].
  destruct (cut_sentence r0) as [[a r1]|] eqn:Ea; [|done].
  destruct (cut_sentences 3 r1) as [more rest'] eqn:Em.
  intros [= <- <-].
  apply cut_keyword_spec in Ew as [-> Hw].
  apply cut_sentence_spec in Ea as (-> & (t & c & -> & Hc) & Ha).
  apply cut_sentences_spec in Em as (-> & Hend & Hle & Hgreedy).
  assert (Heq : w ++ ((t ++ [c]) ++ more ++ rest')
                = (w ++ (t ++ [c]) ++ more) ++ rest')
    by (by rewrite <- !app_assoc).
  split; [exact Heq|].
  exists w, ((t ++ [c]) ++ more), before, rest'.
  split; [done|]. split; [by rewrite Heq|]. split; [done|].
  split.
  { destruct Hend as [-> | (t' & c' & -> & Hc')].
    - exists t, c. by rewrite app_nil_r.
    - exists ((t ++ [c]) ++ t'), c'. by rewrite <- !app_assoc. }
  rewrite terminator_count_app, Ha. split; [lia|].
  destruct Hgreedy as [-> | ?]; [by left | by right].
Qed.

Lemma excerpts_shape keyword s m :
  m ∈ excerpts keyword s -> excerpt_shape keyword s m.
Proof.
  unfold excerpts, findall.
  intros (before & s' & mo & -> & Hmo & ->)%scan_elem.
  rewrite match_here_section in Hmo.
  destruct (excerpt_at keyword s') as [[m rest]|] eqn:E; [|done].
  injection Hmo as <-. simpl.
  by apply (excerpt_at_shape _ before) in E as [_ ?].
Qed.

(** Excerpts do not overlap: the next one is looked for in the text
    after the one found last. *)
Lemma excerpts_search keyword s :
  excerpts keyword s =
    match search (section_pattern keyword) s with
    | None => []
    | Some mo => m_whole mo :: excerpts keyword (m_rest mo)
    end.
Proof.
  unfold excerpts, findall. rewrite scan_search.
  destruct (search (section_pattern keyword) s) as [mo|] eqn:E; [|done].
  simpl. destruct (m_whole mo) as [|c w] eqn:Hw; [exfalso | done].
  apply search_found in E as (before & _ & H).
  rewrite match_here_section in H.
  destruct (excerpt_at keyword (m_whole mo ++ m_rest mo))
    as [[m rest]|] eqn:Ex; [|done].
  injection H as H. rewrite <- H in Hw. simpl in Hw. subst m.
  apply (excerpt_at_shape _ []) in Ex
    as [_ (word & tail & _ & _ & Hm & _ & _ & _ & Hc & _)].
  symmetry in Hm. apply app_eq_nil in Hm as [_ ->].
  unfold terminator_count in Hc. simpl in Hc. lia.
Qed.
End SectionFacts.

(** ** Facts about [strip] *)

Module PyFacts.
Import Unicode Py.

Lemma lstrip_suffix s : exists p, s = p ++ lstrip s.
Proof.
  induction s as [|c s [p IH]]; simpl; [by exists []|].
  destruct (is_space c); [|by exists []].
  exists (c :: p). simpl. by rewrite <- IH.
Qed.

Lemma lstrip_head s c : head (lstrip s) = Some c -> is_space c = false.
Proof.
  induction s as [|d s IH]; simpl; [done|].
  destruct (is_space d) eqn:E; [done|]. simpl. by intros [= <-].
Qed.

Lemma rstrip_prefix s : exists q, s = rstrip s ++ q.
Proof.
  unfold rstrip. destruct (lstrip_suffix (rev s)) as [p Hp].
  exists (rev p). rewrite <- rev_app_distr, <- Hp. by rewrite rev_involutive.
Qed.

Lemma last_rev_head {A : Type} (l : list A) : last (rev l) = head l.
Proof. destruct l as [|a l]; [done|]. simpl. by rewrite last_snoc. Qed.

Lemma rstrip_last s c : last (rstrip s) = Some c -> is_space c = false.
Proof. unfold rstrip. rewrite last_rev_head. apply lstrip_head. Qed.

Lemma strip_head s c : head (strip s) = Some c -> is_space c = false.
Proof.
  unfold strip. destruct (rstrip_prefix (lstrip s)) as [q Hq].
  destruct (rstrip (lstrip s)) as [|d t] eqn:E; [done|].
  simpl. intros [= ->]. apply (lstrip_head s). by rewrite Hq.
Qed.

Lemma strip_last s c : last (strip s) = Some c -> is_space c = false.
Proof. apply rstrip_last. Qed.

Lemma int_of_str_raises s e :
  int_of_str s = Raise e -> exists msg, e = ValueError msg.
Proof.
  unfold int_of_str.
  repeat match goal with
         | |- context [match ?x with _ => _ end] => destruct x
         end; intros [= <-]; eauto.
Qed.
End PyFacts.

(** ** The success path of [parse_ai_response] *)

Module ParserFacts.
Import Unicode Re Py AiAgent Spec ReFacts PyFacts.

Lemma score_patterns_group :
  Forall (fun p => sets_group p = true) score_patterns.
Proof. repeat constructor. Qed.

Lemma score_loop_str patterns s (d : gmap string pyval) :
  Forall (fun p => sets_group p = true) patterns ->
  d !! "overall_score"%string = Some (PyInt 0) ->
  score_loop patterns (PyStr s) d =
    Ok (<["overall_score"%string := PyInt (score_by_priority patterns s)]> d).
Proof.
  intros Hg Hd. induction Hg as [|p later Hp Hg IH]; simpl.
  - by rewrite insert_id.
  - unfold first_number.
    destruct (search p s) as [mo|] eqn:E; [|exact IH].
    destruct (search_group _ _ _ Hp E) as [g Hmo]. rewrite Hmo. simpl.
    destruct (int_of_str g) as [z|e] eqn:Ez.
    + unfold in_range. by destruct ((0 <=? z)%Z && (z <=? 100)%Z).
    + apply int_of_str_raises in Ez as [msg ->]. exact IH.
Qed.

Lemma extend_if_any_stripped recommendations matches :
  extend_if_any recommendations matches = recommendations ++ stripped matches.
Proof. destruct matches; [by rewrite app_nil_r | done]. Qed.

Lemma recommendations_step_str s (d : gmap string pyval) :
  d !! "recommendations"%string = Some (PyList []) ->
  recommendations_step (PyStr s) d =
    Ok (<["recommendations"%string := PyList (recommendations_of s)]> d).
Proof.
  intros Hd. unfold recommendations_step, recommendations_of. simpl.
  rewrite !extend_if_any_stripped. simpl.
  destruct (stripped (findall true numbered_pattern s)
              ++ stripped (findall true bullet_pattern s)); [|done].
  by rewrite insert_id.
Qed.

Lemma keyword_loop_str section_key keywords s (d : gmap string pyval) :
  d !! section_key = Some (PyStr []) ->
  keyword_loop section_key keywords (PyStr s) d =
    Ok (<[section_key := PyStr (section_text keywords s)]> d).
Proof.
  intros Hd. induction keywords as [|keyword later IH]; simpl.
  - by rewrite insert_id.
  - unfold excerpts. by destruct (findall false (section_pattern keyword) s).
Qed.

Lemma parse_body_str s : parse_body (PyStr s) = Ok (result_of s).
Proof.
  unfold parse_body.
  rewrite (score_loop_str _ _ _ score_patterns_group) by done.
  cbn [mbind res_bind].
  rewrite recommendations_step_str by done.
  cbn [mbind res_bind]. unfold sections. cbn [sections_loop].
  repeat (rewrite keyword_loop_str by done; cbn [mbind res_bind]).
  reflexivity.
Qed.

Lemma parse_ai_response_str s : parse_ai_response (PyStr s) = result_of s.
Proof. unfold parse_ai_response. by rewrite parse_body_str. Qed.

Lemma parse_body_not_str v :
  (forall s, v <> PyStr s) ->
  parse_body v =
    Raise (TypeError (codes "expected string or bytes-like object, got '"
                        ++ type_name v ++ codes "'")).
Proof. intros Hv. destruct v; [done | done | by destruct (Hv s) | done]. Qed.
End ParserFacts.

(** ** The claims *)

Import Unicode Re Py AiAgent Main Spec.
Import ReFacts SectionFacts PyFacts ParserFacts.

Lemma extract_score_str s :
  extract_score s = PyInt (score_by_priority score_patterns s).
Proof. unfold extract_score. by rewrite parse_ai_response_str. Qed.

Lemma extract_recommendations_str s :
  extract_recommendations s = PyList (recommendations_of s).
Proof. unfold extract_recommendations. by rewrite parse_ai_response_str. Qed.

Lemma score_by_priority_range patterns s :
  (0 <= score_by_priority patterns s <= 100)%Z.
Proof.
  induction patterns as [|p later IH]; simpl; [lia|].
  destruct (first_number p s) as [z|]; [|exact IH].
  destruct (in_range z) eqn:E; [|exact IH].
  unfold in_range in E. lia.
Qed.

Lemma stripped_clean matches :
  Forall (fun r : list N =>
            r <> []
            /\ (forall c, head r = Some c -> is_space c = false)
            /\ (forall c, last r = Some c -> is_space c = false))
         (stripped matches).
Proof.
  unfold stripped. apply Forall_fmap, Forall_forall.
  intros x [Hx _]%list_elem_of_filter. simpl.
  split; [exact Hx|]. split; [apply strip_head | apply strip_last].
Qed.

(** C9: for every input, a str or not, the [raw_response] entry of the
    dictionary [parse_ai_response] returns is the input itself, on the
    success path and on the exception path alike. *)
Theorem raw_response_preserved (ai_content : pyval) :
  parse_ai_response ai_content !! "raw_response"%string = Some ai_content.
Proof.
  destruct ai_content as [| z | s | l]; [done | done | | done].
  by rewrite parse_ai_response_str.
Qed.

(** C7: for every text the recommendations are the stripped, non-empty
    numbered-list matches followed by the stripped, non-empty bullet-list
    matches, the whole cut to its first ten entries; both strategies
    always run and neither excludes the other. *)
Theorem recommendations_concatenated (s : list N) :
  extract_recommendations s =
    PyList (take 10
      (map strip (filter (fun rec => strip rec <> [])
                    (findall true numbered_pattern s))
       ++ map strip (filter (fun rec => strip rec <> [])
                       (findall true bullet_pattern s)))).
Proof. by rewrite extract_recommendations_str. Qed.

(** Numbered items run on to the next number, to an empty line or to the
    end of the text, so the first item here swallows the bullet line; the
    bullet strategy then reports that line once more. *)
Example recommendations_both_strategies :
  extract_recommendations
    (codes "1. Add tests" ++ [10%N] ++ codes "- Fix the build")
  = PyList [codes "Add tests" ++ [10%N] ++ codes "- Fix the build";
            codes "Fix the build"].
Proof. vm_compute. reflexivity. Qed.

Example recommendations_numbered_list :
  extract_recommendations
    (codes "1. Add tests" ++ [10%N] ++ codes "2. Improve docs")
  = PyList [codes "Add tests"; codes "Improve docs"].
Proof. vm_compute. reflexivity. Qed.

(** C6: for every text the recommendations are a list of at most ten
    entries, each of them non-empty and with no whitespace at its head or
    at its end. *)
Theorem recommendations_bounded (s : list N) :
  exists l : list (list N),
    extract_recommendations s = PyList l
    /\ (length l <= 10)%nat
    /\ Forall (fun r : list N =>
                 r <> []
                 /\ (forall c, head r = Some c -> is_space c = false)
                 /\ (forall c, last r = Some c -> is_space c = false)) l.
Proof.
  exists (recommendations_of s). split; [apply extract_recommendations_str|].
  unfold recommendations_of. split.
  - rewrite length_take. lia.
  - apply Forall_take, Forall_app. split; apply stripped_clean.
Qed.

(** C10: whatever [hash] returns, the fallback [code_quality] that
    [analyze_code_quality] computes lies in 60..100 (it is 75 plus the
    hash modulo 20, so the clamps never bite). *)
Theorem fallback_score_range (hash : list N -> Z)
    (repo_path file_counts_str : list N) :
  let q := code_quality (analyze_code_quality hash repo_path file_counts_str) in
  (60 <= q <= 100)%Z /\ q = (75 + hash file_counts_str mod 20)%Z.
Proof.
  simpl. pose proof (Z.mod_pos_bound (hash file_counts_str) 20 eq_refl). lia.
Qed.

Lemma score_loop_rejects p later s (d : gmap string pyval) mo z :
  search p s = Some mo ->
  int_of_group (m_group mo) = Ok z ->
  in_range z = false ->
  score_loop (p :: later) (PyStr s) d = score_loop later (PyStr s) d.
Proof.
  intros Hs Hz Hr. simpl. rewrite Hs, Hz.
  unfold in_range in Hr. by rewrite Hr.
Qed.

Lemma score_by_priority_none patterns s :
  (forall p z, p ∈ patterns -> first_number p s = Some z -> in_range z = false) ->
  score_by_priority patterns s = 0%Z.
Proof.
  induction patterns as [|p later IH]; intros H; simpl; [done|].
  assert (Hlater : score_by_priority later s = 0%Z).
  { apply IH. intros q z Hq. apply H. by right. }
  destruct (first_number p s) as [z|] eqn:E; [|done].
  by rewrite (H p z (list_elem_of_here _ _) E).
Qed.

(** C5: for every text the extracted score is an integer of 0..100, namely
    the number of the first pattern, in the fixed order, whose first match
    holds a number of 0..100.  A pattern whose first match holds a number
    outside 0..100 is given up and the loop goes on with the next pattern;
    when no pattern's first match holds a number of 0..100 the score
    is 0. *)
Theorem extract_score_priority (s : list N) :
  extract_score s = PyInt (score_by_priority score_patterns s)
  /\ (0 <= score_by_priority score_patterns s <= 100)%Z
  /\ (forall p later (d : gmap string pyval) mo z,
        search p s = Some mo ->
        int_of_group (m_group mo) = Ok z ->
        ~ (0 <= z <= 100)%Z ->
        score_loop (p :: later) (PyStr s) d = score_loop later (PyStr s) d)
  /\ ((forall p mo z,
          p ∈ score_patterns ->
          search p s = Some mo ->
          int_of_group (m_group mo) = Ok z ->
          ~ (0 <= z <= 100)%Z) ->
      extract_score s = PyInt 0).
Proof.
  split; [apply extract_score_str|].
  split; [apply score_by_priority_range|].
  split.
  - intros p later d mo z Hs Hz Hr. eapply score_loop_rejects; eauto.
    unfold in_range. lia.
  - intros H. rewrite extract_score_str. f_equal.
    apply score_by_priority_none. intros p z Hp Hn.
    unfold first_number in Hn.
    destruct (search p s) as [mo|] eqn:Hs; [|done].
    destruct (int_of_group (m_group mo)) as [z'|] eqn:Hz; [|done].
    injection Hn as ->. specialize (H p mo z Hp Hs Hz).
    unfold in_range. lia.
Qed.

(** The first match of the N/100 pattern is 150/100, which is refused; the
    score then comes from the third pattern and not from the later match
    80/100 of the first. *)
Lemma extract_score_priority_witness :
  let s := codes "150/100 and 80/100, score: 42" in
  extract_score s = PyInt 42
  /\ score_loop score_patterns (PyStr s) (initial_result (PyStr s))
     = score_loop (tail score_patterns) (PyStr s) (initial_result (PyStr s)).
Proof.
  split.
  - rewrite (proj1 (extract_score_priority _)). reflexivity.
  - apply (proj1 (proj2 (proj2 (extract_score_priority _))))
      with (mo := MatchObj (codes "150/100") (Some (codes "150"))
                           (codes " and 80/100, score: 42"))
           (z := 150%Z); [reflexivity | reflexivity | lia].
Defined.

(** C8: a text on which no score pattern, neither list pattern and no
    section keyword has a match is parsed without an exception into the
    default dictionary: score 0, no recommendations, four empty sections,
    the text itself as [raw_response], and no [error] entry. *)
Theorem unparsable_input_defaults (s : list N) :
  (forall p, p ∈ score_patterns -> search p s = None) ->
  findall true numbered_pattern s = [] ->
  findall true bullet_pattern s = [] ->
  (forall section_key keywords keyword,
      (section_key, keywords) ∈ sections -> keyword ∈ keywords ->
      findall false (section_pattern keyword) s = []) ->
  let d := parse_ai_response (PyStr s) in
  parse_body (PyStr s) = Ok d
  /\ d !! "overall_score"%string = Some (PyInt 0)
  /\ d !! "recommendations"%string = Some (PyList [])
  /\ d !! "architecture_analysis"%string = Some (PyStr [])
  /\ d !! "performance_analysis"%string = Some (PyStr [])
  /\ d !! "security_analysis"%string = Some (PyStr [])
  /\ d !! "best_practices_analysis"%string = Some (PyStr [])
  /\ d !! "raw_response"%string = Some (PyStr s)
  /\ d !! "error"%string = None.
Proof.
  intros Hscore Hnum Hbul Hsec d.
  assert (Hd : d = initial_result (PyStr s)).
  { subst d. rewrite parse_ai_response_str. unfold result_of, initial_result.
    assert (Hz : score_by_priority score_patterns s = 0%Z).
    { apply score_by_priority_none. intros p z Hp Hn.
      unfold first_number in Hn. by rewrite (Hscore p Hp) in Hn. }
    assert (Hr : recommendations_of s = []).
    { unfold recommendations_of. by rewrite Hnum, Hbul. }
    assert (Ht : forall section_key keywords,
               (section_key, keywords) ∈ sections ->
               section_text keywords s = []).
    { intros section_key keywords Hin.
      assert (Hall : forall keyword, keyword ∈ keywords ->
                excerpts keyword s = []) by (intros; by eapply Hsec).
      clear Hin. induction keywords as [|keyword later IH]; simpl; [done|].
      rewrite (Hall keyword) by left. apply IH. intros k Hk. apply Hall. by right. }
    rewrite Hz, Hr.
    rewrite (Ht "architecture_analysis"%string) by (unfold sections; set_solver).
    rewrite (Ht "performance_analysis"%string) by (unfold sections; set_solver).
    rewrite (Ht "security_analysis"%string) by (unfold sections; set_solver).
    rewrite (Ht "best_practices_analysis"%string) by (unfold sections; set_solver).
    done. }
  split; [by rewrite parse_body_str; subst d; rewrite parse_ai_response_str|].
  rewrite Hd. by repeat split.
Qed.

(** The empty string is such a text. *)
Lemma unparsable_input_defaults_witness :
  let d := parse_ai_response (PyStr []) in
  parse_body (PyStr []) = Ok d
  /\ d !! "overall_score"%string = Some (PyInt 0)
  /\ d !! "recommendations"%string = Some (PyList [])
  /\ d !! "architecture_analysis"%string = Some (PyStr [])
  /\ d !! "performance_analysis"%string = Some (PyStr [])
  /\ d !! "security_analysis"%string = Some (PyStr [])
  /\ d !! "best_practices_analysis"%string = Some (PyStr [])
  /\ d !! "raw_response"%string = Some (PyStr [])
  /\ d !! "error"%string = None.
Proof.
  apply (unparsable_input_defaults []).
  - intros p Hp. unfold score_patterns in Hp.
    repeat (apply elem_of_cons in Hp as [-> | Hp]; [reflexivity|]).
    by apply elem_of_nil in Hp.
  - reflexivity.
  - reflexivity.
  - intros section_key keywords keyword Hs Hk. unfold sections in Hs.
    repeat (apply elem_of_cons in Hs as [[= -> ->] | Hs];
            [repeat (apply elem_of_cons in Hk as [-> | Hk]; [reflexivity|]);
             by apply elem_of_nil in Hk|]).
    by apply elem_of_nil in Hs.
Defined.

(** *** The pattern N/100 on a text that holds 87/100 *)

Lemma search_here r s mo : match_here r s = Some mo -> search r s = Some mo.
Proof. intros H. destruct s; simpl; by rewrite H. Qed.

Lemma search_skip r before s :
  Forall (fun c => forall rest, match_here r (c :: rest) = None) before ->
  search r (before ++ s) = search r s.
Proof.
  induction 1 as [|c before Hc _ IH]; simpl; [done|]. by rewrite Hc.
Qed.

Lemma n_of_100_needs_digit c rest :
  is_digit c = false -> match_here n_of_100 (c :: rest) = None.
Proof. intros Hc. unfold match_here. simpl. by rewrite Hc. Qed.

Lemma n_of_100_at_87 after :
  match_here n_of_100 (codes "87/100" ++ after)
    = Some (MatchObj (codes "87/100") (Some (codes "87")) after).
Proof.
  pose proof (consumed_app (codes "87/100") after) as Hwhole.
  pose proof (consumed_app (codes "87") (codes "/100" ++ after)) as Hgroup.
  unfold match_here. cbv -[consumed] in *. by rewrite Hwhole, Hgroup.
Qed.

(** C4, as stated, fails: a text holds 87/100 and the score is not 87,
    because the first match of the pattern takes up to three digits before
    the slash (187 is refused) or lies further left (5/100). *)
Lemma score_87_of_100_counterexample :
  extract_score (codes "1" ++ codes "87/100" ++ codes "") = PyInt 0
  /\ extract_score (codes "5/100 and " ++ codes "87/100" ++ codes "") = PyInt 5.
Proof. split; vm_compute; reflexivity. Qed.

(** C4, amended: for every text in which no digit stands before the
    substring 87/100 the extracted score is 87. *)
Theorem score_87_of_100 (before after : list N) :
  Forall (fun c => is_digit c = false) before ->
  extract_score (before ++ codes "87/100" ++ after) = PyInt 87.
Proof.
  intros Hbefore. rewrite extract_score_str. f_equal.
  unfold score_patterns. cbn [score_by_priority]. unfold first_number.
  rewrite search_skip.
  - by rewrite (search_here _ _ _ (n_of_100_at_87 after)).
  - eapply Forall_impl; [exact Hbefore|].
    intros c Hc rest. by apply n_of_100_needs_digit.
Qed.

Lemma score_87_of_100_witness :
  Forall (fun c => is_digit c = false) (codes "Overall: ")
  /\ extract_score (codes "Overall: " ++ codes "87/100" ++ codes " points")
     = PyInt 87.
Proof.
  assert (H : Forall (fun c => is_digit c = false) (codes "Overall: "))
    by (repeat constructor).
  split; [exact H | exact (score_87_of_100 _ _ H)].
Defined.


(** X18: the body of the [try] raises exactly when the input is not a
    str (a null message content reaches the parser as [None]); the
    dictionary of the [except] branch then holds [overall_score] 0,
    empty [recommendations], the input as [raw_response] and the message
    as [error], and none of the four section-analysis entries. *)
Theorem parse_ai_response_non_str (ai_content : pyval) :
  ((exists e, parse_body ai_content = Raise e)
   <-> forall s, ai_content <> PyStr s)
  /\ (forall e, parse_body ai_content = Raise e ->
        let d := parse_ai_response ai_content in
        d !! "overall_score"%string = Some (PyInt 0)
        /\ d !! "recommendations"%string = Some (PyList [])
        /\ d !! "raw_response"%string = Some ai_content
        /\ d !! "error"%string
           = Some (PyStr (codes "Error parsing AI response: " ++ exn_str e))
        /\ d !! "architecture_analysis"%string = None
        /\ d !! "performance_analysis"%string = None
        /\ d !! "security_analysis"%string = None
        /\ d !! "best_practices_analysis"%string = None).
Proof.
  split.
  - split.
    + intros [e He] s ->. by rewrite parse_body_str in He.
    + intros Hv. eexists. by apply parse_body_not_str.
  - intros e He d. subst d. unfold parse_ai_response. rewrite He.
    by repeat split.
Qed.

Lemma parse_ai_response_non_str_witness :
  parse_body PyNone
    = Raise (TypeError
        (codes "expected string or bytes-like object, got 'NoneType'"))
  /\ (let d := parse_ai_response PyNone in
      d !! "overall_score"%string = Some (PyInt 0)
      /\ d !! "recommendations"%string = Some (PyList [])
      /\ d !! "raw_response"%string = Some PyNone
      /\ d !! "error"%string
         = Some (PyStr (codes "Error parsing AI response: "
                          ++ codes "expected string or bytes-like object, got 'NoneType'"))
      /\ d !! "architecture_analysis"%string = None
      /\ d !! "performance_analysis"%string = None
      /\ d !! "security_analysis"%string = None
      /\ d !! "best_practices_analysis"%string = None).
Proof.
  split; [reflexivity|].
  exact (proj2 (parse_ai_response_non_str PyNone)
           (TypeError (codes "expected string or bytes-like object, got 'NoneType'"))
           eq_refl).
Defined.

(** *** Sections *)

Lemma extract_section_str section_key keywords s :
  (section_key, keywords) ∈ sections ->
  extract_section section_key s = PyStr (section_text keywords s).
Proof.
  intros Hin. unfold sections in Hin. unfold extract_section.
  rewrite parse_ai_response_str.
  repeat (apply elem_of_cons in Hin as [[= -> ->] | Hin]; [reflexivity|]).
  by apply elem_of_nil in Hin.
Qed.

Lemma section_text_first before keyword after s :
  Forall (fun k => excerpts k s = []) before ->
  excerpts keyword s <> [] ->
  section_text (before ++ keyword :: after) s
    = join [32%N] (excerpts keyword s).
Proof.
  intros Hbefore Hk. induction Hbefore as [|k before Hk0 _ IH]; simpl.
  - by destruct (excerpts keyword s).
  - by rewrite Hk0.
Qed.

Lemma section_text_none keywords s :
  Forall (fun k => excerpts k s = []) keywords -> section_text keywords s = [].
Proof. induction 1 as [|k later Hk _ IH]; simpl; [done|]. by rewrite Hk. Qed.

(** C2, as stated, fails: both occurrences of the keyword lie in the one
    sentence "Good security and security."; the words of the claim give
    that sentence once per occurrence, the code gives one excerpt that
    begins at the first occurrence. *)
Lemma section_excerpt_counterexample :
  let s := codes "Good security and security." in
  extract_section "security_analysis" s
    = PyStr (codes "security and security.")
  /\ claimed_section (codes "security") s
     = codes "Good security and security. Good security and security."
  /\ extract_section "security_analysis" s
     <> PyStr (claimed_section (codes "security") s).
Proof. split; [|split]; [vm_compute; reflexivity .. | by vm_compute]. Qed.

(** C2, amended: for every text and every category the keywords are tried
    in order and the section is the single-space join of what
    [re.findall] reports for the first keyword whose pattern matches
    anywhere, later keywords not being tried; it is empty when no
    keyword's pattern matches.  The matches are found left to right and do
    not overlap; each one lies in the text, begins at an occurrence of the
    keyword in any case (not at the start of its sentence), runs to the
    next terminator [.], [!] or [?] and on through up to three more
    terminated sentences, as many as the text still has. *)
Theorem section_extraction (s : list N) (section_key : string)
    (keywords : list (list N)) :
  (section_key, keywords) ∈ sections ->
  extract_section section_key s = PyStr (section_text keywords s)
  /\ (forall before keyword after,
        keywords = before ++ keyword :: after ->
        Forall (fun k => findall false (section_pattern k) s = []) before ->
        findall false (section_pattern keyword) s <> [] ->
        extract_section section_key s
          = PyStr (join [32%N] (findall false (section_pattern keyword) s)))
  /\ (Forall (fun k => findall false (section_pattern k) s = []) keywords ->
      extract_section section_key s = PyStr [])
  /\ (forall keyword m,
        m ∈ findall false (section_pattern keyword) s ->
        excerpt_shape keyword s m)
  /\ (forall keyword t,
        findall false (section_pattern keyword) t =
          match search (section_pattern keyword) t with
          | None => []
          | Some mo =>
              m_whole mo :: findall false (section_pattern keyword) (m_rest mo)
          end).
Proof.
  intros Hin. pose proof (extract_section_str _ _ s Hin) as Hs.
  split; [exact Hs|]. split; [|split; [|split]].
  - intros before keyword after -> Hbefore Hk.
    rewrite Hs. f_equal. by apply section_text_first.
  - intros Hnone. rewrite Hs. f_equal. by apply section_text_none.
  - intros keyword m. apply excerpts_shape.
  - intros keyword t. apply excerpts_search.
Qed.

Lemma section_extraction_witness :
  let s := codes
    "Security is weak. We found SQL injection risk. Fix immediately. Also check logs." in
  ("security_analysis"%string,
     [codes "security"; codes "vulnerability"; codes "risk";
      codes "protection"]) ∈ sections
  /\ extract_section "security_analysis" s = PyStr s.
Proof.
  assert (Hin : ("security_analysis"%string,
     [codes "security"; codes "vulnerability"; codes "risk";
      codes "protection"]) ∈ sections).
  { unfold sections. do 2 apply list_elem_of_further. apply list_elem_of_here. }
  split; [exact Hin|].
  destruct (section_extraction
    (codes "Security is weak. We found SQL injection risk. Fix immediately. Also check logs.")
    _ _ Hin) as (_ & Hfirst & _).
  rewrite (Hfirst [] (codes "security")
             [codes "vulnerability"; codes "risk"; codes "protection"]);
    [vm_compute; reflexivity | reflexivity | constructor
    | vm_compute; discriminate].
Defined.

(** *** Blending *)

Lemma weighted_average_table :
  forallb (fun z =>
    forallb (fun q =>
      match weighted_average z q with
      | Ok w => ((7 * z + 3 * q) / 10 - 1 <=? w)%Z && (w <=? (7 * z + 3 * q) / 10)%Z
      | Raise _ => false
      end) (seqZ 60 41)) (seqZ 0 101) = true.
Proof. vm_compute. reflexivity. Qed.

(** On the scores the two analyses produce, the blend is a number: the
    exact weighted average rounded down, or one less where the binary64
    sum falls just short of an integer. *)
Lemma weighted_average_bounds z q :
  (0 <= z <= 100)%Z -> (60 <= q <= 100)%Z ->
  exists w, weighted_average z q = Ok w
    /\ ((7 * z + 3 * q) / 10 - 1 <= w <= (7 * z + 3 * q) / 10)%Z.
Proof.
  intros Hz Hq. pose proof weighted_average_table as H.
  rewrite forallb_forall in H.
  assert (Hin : In z (seqZ 0 101)) by (apply list_elem_of_In, elem_of_seqZ; lia).
  specialize (H z Hin). rewrite forallb_forall in H.
  assert (Hin' : In q (seqZ 60 41)) by (apply list_elem_of_In, elem_of_seqZ; lia).
  specialize (H q Hin').
  destruct (weighted_average z q) as [w|]; [|discriminate].
  exists w. split; [done|]. apply andb_true_iff in H as [H1 H2]. lia.
Qed.

Lemma blended_code_quality_cases api_key (ai_analysis : gmap string pyval)
    code_quality z :
  ai_analysis !! "overall_score"%string = Some (PyInt z) ->
  blended_code_quality api_key ai_analysis code_quality =
    if truthy api_key
       && negb (truthy (get ai_analysis "error"))
       && truthy (get ai_analysis "recommendations")
       && (0 <? z)%Z
    then weighted_average z code_quality
    else Ok code_quality.
Proof.
  intros Hz. unfold blended_code_quality. rewrite Hz.
  destruct (truthy api_key); [|done].
  assert (Hne : bool_decide (ai_analysis = ∅) = false).
  { apply bool_decide_eq_false. intros ->. by rewrite lookup_empty in Hz. }
  rewrite Hne. simpl.
  destruct (truthy (get ai_analysis "error")); [done|].
  destruct (truthy (get ai_analysis "recommendations")); [|done].
  simpl. by destruct (0 <? z)%Z.
Qed.

(** C3, as stated, fails: the AI text gives the score 80 and no list item,
    so the recommendations are empty and the fallback score 90 is kept,
    where the weighted average would be 83. *)
Lemma blending_counterexample :
  let ai_analysis :=
    parse_ai_response (PyStr (codes "Overall quality score: 80/100")) in
  ai_analysis !! "overall_score"%string = Some (PyInt 80)
  /\ ai_analysis !! "error"%string = None
  /\ blended_code_quality (PyStr (codes "sk-or-v1")) ai_analysis 90 = Ok 90%Z
  /\ weighted_average 80 90 = Ok 83%Z.
Proof. repeat split; vm_compute; reflexivity. Qed.

(** C3, amended: the fallback score is replaced by
    [int(0.7 * ai_score + 0.3 * code_quality)] exactly when an API key is
    set, the AI analysis has no [error], its [recommendations] are not
    empty and its [overall_score] is positive; in every other case, a zero
    score among them, the fallback score is kept.  For the dictionary
    that [parse_ai_response] makes of a text this means: a key, at least
    one recommendation and a positive score.  On scores of 0..100 and
    fallback scores of 60..100 the weighted average is defined. *)
Theorem blending_condition (api_key : pyval) (code_quality : Z) :
  (forall (ai_analysis : gmap string pyval) z,
      ai_analysis !! "overall_score"%string = Some (PyInt z) ->
      blended_code_quality api_key ai_analysis code_quality =
        if truthy api_key
           && negb (truthy (get ai_analysis "error"))
           && truthy (get ai_analysis "recommendations")
           && (0 <? z)%Z
        then weighted_average z code_quality
        else Ok code_quality)
  /\ (forall s,
        blended_code_quality api_key (parse_ai_response (PyStr s)) code_quality =
          if truthy api_key
             && truthy (PyList (recommendations_of s))
             && (0 <? score_by_priority score_patterns s)%Z
          then weighted_average (score_by_priority score_patterns s) code_quality
          else Ok code_quality)
  /\ (forall z, (0 <= z <= 100)%Z -> (60 <= code_quality <= 100)%Z ->
        exists w, weighted_average z code_quality = Ok w
          /\ ((7 * z + 3 * code_quality) / 10 - 1 <= w
              <= (7 * z + 3 * code_quality) / 10)%Z).
Proof.
  split; [|split].
  - intros ai_analysis z. apply blended_code_quality_cases.
  - intros s.
    rewrite (blended_code_quality_cases _ _ _ (score_by_priority score_patterns s))
      by (by rewrite parse_ai_response_str).
    rewrite parse_ai_response_str. by destruct (truthy api_key).
  - intros z Hz Hq. by apply weighted_average_bounds.
Qed.

Lemma blending_condition_witness :
  let ai_analysis :=
    parse_ai_response (PyStr (codes "Score: 80/100. 1. Add tests")) in
  ai_analysis !! "overall_score"%string = Some (PyInt 80)
  /\ blended_code_quality (PyStr (codes "sk-or-v1")) ai_analysis 90 = Ok 83%Z.
Proof.
  split; [vm_compute; reflexivity|].
  rewrite (proj1 (blending_condition (PyStr (codes "sk-or-v1")) 90) _ 80%Z)
    by (vm_compute; reflexivity).
  vm_compute. reflexivity.
Defined.

(** ** Further properties of the parser *)

(** *** More about the matcher *)

Lemma rep_greedy_consumed {A : Type} cc lo hi s (k : list N -> option A) a :
  rep_greedy cc lo hi s k = Some a ->
  exists x rest,
    s = x ++ rest /\ k rest = Some a
    /\ Forall (fun c => cmatch cc c = true) x
    /\ (lo <= length x)%nat
    /\ (forall n, hi = Some n -> (length x <= n)%nat).
Proof.
  revert lo hi. induction s as [|c s IH]; intros lo hi; simpl.
  - destruct lo; [|discriminate]. intros H. exists [], [].
    repeat split; [done | done | simpl; lia | intros; simpl; lia].
  - assert (Hstop : match lo with O => k (c :: s) | S _ => None end = Some a ->
      exists x rest, c :: s = x ++ rest /\ k rest = Some a
        /\ Forall (fun c => cmatch cc c = true) x
        /\ (lo <= length x)%nat
        /\ (forall n, hi = Some n -> (length x <= n)%nat)).
    { destruct lo; [|discriminate]. intros H. exists [], (c :: s).
      repeat split; [done | done | simpl; lia | intros; simpl; lia]. }
    destruct (cmatch cc c && more hi) eqn:Hc; [|exact Hstop].
    apply andb_true_iff in Hc as [Hc Hm].
    destruct (rep_greedy cc (pred lo) (less hi) s k) eqn:E; simpl; [|exact Hstop].
    intros [= <-]. apply IH in E as (x & rest & -> & Hk & Hx & Hlo & Hhi).
    exists (c :: x), rest. repeat split; [done | by constructor | simpl; lia |].
    intros n ->. simpl in *. destruct n; [discriminate|].
    specialize (Hhi n eq_refl). lia.
Qed.

(** A lazy repeat stops at the first place where the rest of the pattern
    goes through. *)
Lemma rep_lazy_least {A : Type} cc s (k : list N -> option A) a :
  rep_lazy cc 0 None s k = Some a ->
  exists x rest,
    s = x ++ rest /\ k rest = Some a
    /\ forall x1 x2, x = x1 ++ x2 -> x2 <> [] -> k (x2 ++ rest) = None.
Proof.
  induction s as [|c s IH]; simpl.
  - destruct (k []) eqn:E; simpl; [|discriminate]. intros [= <-].
    exists [], []. repeat split; [done|].
    intros x1 x2 Hx. symmetry in Hx. by apply app_eq_nil in Hx as [_ ->].
  - destruct (k (c :: s)) eqn:E; simpl.
    + intros [= <-]. exists [], (c :: s). repeat split; [done|].
      intros x1 x2 Hx. symmetry in Hx. by apply app_eq_nil in Hx as [_ ->].
    + destruct (cmatch cc c); simpl; [|discriminate].
      intros (x & rest & -> & Hk & Hleast)%IH.
      exists (c :: x), rest. repeat split; [done|].
      intros x1 x2 Hx Hx2. destruct x1 as [|c1 x1]; simpl in Hx.
      * by rewrite <- Hx.
      * injection Hx as _ ->. by apply (Hleast x1).
Qed.

Lemma rep_greedy_always {A : Type} cc hi s (k : list N -> option A) :
  (forall s', is_Some (k s')) -> is_Some (rep_greedy cc 0 hi s k).
Proof.
  intros Hk. revert hi. induction s as [|c s IH]; intros hi; simpl; [done|].
  destruct (cmatch cc c && more hi); [|done].
  destruct (IH (less hi)) as [a ->]. by eexists.
Qed.

(** A pattern without a group hands the group on as it found it. *)
Lemma rmatch_keeps_group (r : regex) :
  has_group r = false ->
  forall (A : Type) s g (k : list N -> option (list N) -> option A) a,
    rmatch r s g k = Some a ->
    exists s', k s' g = Some a /\ s' `suffix_of` s.
Proof.
  induction r as [| cc | r1 IH1 r2 IH2 | r1 IH1 r2 IH2 | greedy lo hi cc
                  | n r1 IH1 | r1 IH1 | r1 IH1 |]; simpl; intros Hg A s g k a.
  - intros H. by exists s.
  - destruct s as [|c s]; [discriminate|].
    destruct (cmatch cc c); [|discriminate].
    intros H. exists s. split; [done | by apply suffix_cons_r].
  - apply orb_false_iff in Hg as [Hg1 Hg2].
    intros (s1 & H & Hs1)%(IH1 Hg1). apply (IH2 Hg2) in H as (s2 & H & Hs2).
    exists s2. split; [done | by etrans].
  - apply orb_false_iff in Hg as [Hg1 Hg2].
    destruct (rmatch r1 s g k) eqn:E; simpl.
    + intros [= <-]. by apply (IH1 Hg1) in E.
    + by intros ?%(IH2 Hg2).
  - destruct greedy; intros H;
      [apply rep_greedy_calls in H as (s' & H & Hs)
      | apply rep_lazy_calls in H as (s' & H & Hs)]; by exists s'.
  - revert s g. induction n as [|n IHn]; intros s g.
    + intros H. by exists s.
    + match goal with |- or_else ?x _ = _ -> _ => destruct x eqn:E end; simpl.
      * intros [= <-]. apply (IH1 Hg) in E as (s1 & H & Hs1).
        apply IHn in H as (s2 & H & Hs2). exists s2. split; [done | by etrans].
      * intros H. by exists s.
  - discriminate.
  - destruct (rmatch r1 s g (fun _ g1 => Some g1)) as [g1|] eqn:E; [|discriminate].
    apply (IH1 Hg) in E as (s1 & [= ->] & _). intros H. by exists s.
  - destruct s; [|discriminate]. intros H. by exists [].
Qed.

(** Group 1 of a match is a run of the text. *)
Lemma rmatch_group_occurs (r : regex) :
  forall (A : Type) s g (k : list N -> option (list N) -> option A) a,
    rmatch r s g k = Some a ->
    exists s' g', k s' g' = Some a
      /\ s' `suffix_of` s
      /\ (g' = g \/ exists x, g' = Some x /\ occurs_in x s).
Proof.
  assert (Hsuffix : forall (x s1 s : list N),
            s1 `suffix_of` s -> occurs_in x s1 -> occurs_in x s).
  { intros x s1 s [p ->] (b & a' & ->). exists (p ++ b), a'.
    by rewrite <- !app_assoc. }
  induction r as [| cc | r1 IH1 r2 IH2 | r1 IH1 r2 IH2 | greedy lo hi cc
                  | n r1 IH1 | r1 IH1 | r1 IH1 |]; intros A s g k a; simpl.
  - intros H. exists s, g. by repeat split; [| | left].
  - destruct s as [|c s]; [discriminate|].
    destruct (cmatch cc c); [|discriminate].
    intros H. exists s, g. split; [done|]. split; [by apply suffix_cons_r | by left].
  - intros (s1 & g1 & H & Hs1 & Hg1)%IH1.
    apply IH2 in H as (s2 & g2 & H & Hs2 & Hg2).
    exists s2, g2. split; [done|]. split; [by etrans|].
    destruct Hg2 as [-> | (x & -> & Hx)]; [exact Hg1|].
    right. exists x. split; [done | by eapply Hsuffix].
  - destruct (rmatch r1 s g k) eqn:E; simpl.
    + intros [= <-]. by apply IH1 in E.
    + by intros ?%IH2.
  - destruct greedy; intros H;
      [apply rep_greedy_calls in H as (s' & H & Hs)
      | apply rep_lazy_calls in H as (s' & H & Hs)];
      exists s', g; (split; [done|]; split; [done | by left]).
  - revert s g. induction n as [|n IHn]; intros s g.
    + intros H. exists s, g. by repeat split; [| | left].
    + match goal with |- or_else ?x _ = _ -> _ => destruct x eqn:E end; simpl.
      * intros [= <-]. apply IH1 in E as (s1 & g1 & H & Hs1 & Hg1).
        apply IHn in H as (s2 & g2 & H & Hs2 & Hg2).
        exists s2, g2. split; [done|]. split; [by etrans|].
        destruct Hg2 as [-> | (x & -> & Hx)]; [exact Hg1|].
        right. exists x. split; [done | by eapply Hsuffix].
      * intros H. exists s, g. by repeat split; [| | left].
  - intros (s1 & g1 & H & [p ->] & _)%IH1.
    exists s1, (Some (consumed (p ++ s1) s1)). split; [done|].
    split; [by exists p|]. right. exists p. split; [by rewrite consumed_app|].
    exists [], s1. done.
  - destruct (rmatch r1 s g (fun _ g1 => Some g1)) as [g1|] eqn:E; [|discriminate].
    apply IH1 in E as (s1 & g1' & [= ->] & _ & Hg1).
    intros H. exists s, g1. by repeat split.
  - destruct s; [|discriminate]. intros H. exists [], g. by repeat split; [| | left].
Qed.

(** *** List items *)

Lemma occurs_in_trans (a b c : list N) :
  occurs_in a b -> occurs_in b c -> occurs_in a c.
Proof.
  intros (p & q & ->) (p' & q' & ->). exists (p' ++ p), (q ++ q').
  by rewrite <- !app_assoc.
Qed.

Lemma strip_occurs (x : list N) : occurs_in (strip x) x.
Proof.
  unfold strip. destruct (lstrip_suffix x) as [p Hp].
  destruct (rstrip_prefix (lstrip x)) as [q Hq].
  exists p, q. by rewrite <- Hq.
Qed.

Lemma rmatch_ahead {A : Type} r s g
    (k : list N -> option (list N) -> option A) :
  rmatch (Ahead r) s g k =
    match rmatch r s g (fun _ g1 => Some g1) with
    | Some g1 => k s g1
    | None => None
    end.
Proof. reflexivity. Qed.

Lemma rmatch_alt {A : Type} r1 r2 s g
    (k : list N -> option (list N) -> option A) :
  rmatch (Alt r1 r2) s g k = or_else (rmatch r1 s g k) (rmatch r2 s g k).
Proof. reflexivity. Qed.

Lemma item_end_keeps {A : Type} marker s g
    (k : list N -> option (list N) -> option A) a :
  has_group marker = false ->
  rmatch (item_end marker) s g k = Some a -> k s g = Some a.
Proof.
  intros Hm. unfold item_end. rewrite rmatch_ahead.
  match goal with |- match ?x with _ => _ end = _ -> _ => destruct x eqn:E end;
    [|discriminate].
  apply rmatch_keeps_group in E as (s1 & [= ->] & _); [done|].
  simpl. by rewrite Hm.
Qed.

(** What [re.findall] reports for a list pattern: a run of the text that
    ends at the first place where the look-ahead holds. *)
Lemma item_group marker s mo :
  has_group marker = false ->
  match_here (seq [marker; spaces; Grp (Rep false 0 None CAny);
                   item_end marker]) s = Some mo ->
  exists x rest,
    m_group mo = Some x
    /\ occurs_in (x ++ rest) s
    /\ forall x1 x2, x = x1 ++ x2 -> x2 <> [] ->
         rmatch (item_end marker) (x2 ++ rest) (Some x1)
           (fun rest' g => Some (MatchObj (consumed s rest') g rest')) = None.
Proof.
  intros Hm. unfold match_here. cbn [seq]. rewrite rmatch_cat.
  intros (s1 & g1 & H & [p1 ->] & _)%rmatch_calls.
  rewrite rmatch_cat in H.
  apply rmatch_calls in H as (s2 & g2 & H & [p2 ->] & _).
  rewrite rmatch_cat in H. cbn [rmatch] in H.
  apply rep_lazy_least in H as (x & rest & -> & Hk & Hleast).
  rewrite consumed_app in Hk. apply item_end_keeps in Hk; [|done].
  injection Hk as <-. exists x, rest. split; [done|]. split.
  - exists (p1 ++ p2), []. rewrite app_nil_r. rewrite <- !app_assoc. reflexivity.
  - intros x1 x2 -> Hx2. specialize (Hleast x1 x2 eq_refl Hx2).
    rewrite <- !app_assoc in Hleast. rewrite consumed_app in Hleast.
    rewrite <- !app_assoc. exact Hleast.
Qed.

(** No place inside an item lets the look-ahead through. *)
Lemma item_no_trigger marker (P : list N -> Prop) s m :
  has_group marker = false ->
  (forall t, P t ->
     forall (A : Type) g (k : list N -> option (list N) -> option A),
       (forall s' g', is_Some (k s' g')) ->
       is_Some (rmatch (item_end marker) t g k)) ->
  m ∈ findall true (seq [marker; spaces; Grp (Rep false 0 None CAny);
                         item_end marker]) s ->
  occurs_in m s
  /\ exists rest, forall x1 x2, m = x1 ++ x2 -> x2 <> [] -> ~ P (x2 ++ rest).
Proof.
  intros Hm HP (before & s' & mo & -> & Hmo & ->)%scan_elem.
  apply item_group in Hmo as (x & rest & Hg & Hocc & Hleast); [|done].
  unfold reported. rewrite Hg. simpl. split.
  - apply occurs_in_trans with (x ++ rest); [by exists [], rest|].
    apply occurs_in_trans with s'; [done | by exists before, []; rewrite app_nil_r].
  - exists rest. intros x1 x2 Hx Hx2 HPt.
    specialize (Hleast x1 x2 Hx Hx2).
    destruct (HP _ HPt _ (Some x1)
                (fun rest' g => Some (MatchObj (consumed s' rest') g rest')))
      as [a Ha]; [by eexists|].
    by rewrite Hleast in Ha.
Qed.

Lemma blank_line_ends_item marker t (A : Type) g
    (k : list N -> option (list N) -> option A) :
  (forall s' g', is_Some (k s' g')) ->
  is_Some (rmatch (item_end marker) (10 :: 10 :: t)%N g k).
Proof.
  intros Hk. unfold item_end. rewrite rmatch_ahead, rmatch_alt.
  match goal with |- context [or_else ?x _] => destruct x end; simpl; apply Hk.
Qed.

Lemma bullet_ends_item c t (A : Type) g
    (k : list N -> option (list N) -> option A) :
  is_bullet c = true ->
  (forall s' g', is_Some (k s' g')) ->
  is_Some (rmatch (item_end bullet_marker) (c :: t) g k).
Proof.
  intros Hc Hk. unfold item_end, bullet_marker, spaces.
  rewrite rmatch_ahead, rmatch_alt, rmatch_cat. cbn [rmatch cmatch].
  unfold is_bullet in Hc. rewrite Hc.
  destruct (rep_greedy_always CSpace None t (fun _ : list N => Some g))
    as [g1 Hg1]; [by eexists|].
  rewrite Hg1. simpl. apply Hk.
Qed.

Lemma numbered_marker_ends_item d t (A : Type) g
    (k : list N -> option (list N) -> option A) :
  is_digit d = true ->
  (forall s' g', is_Some (k s' g')) ->
  is_Some (rmatch (item_end numbered_marker) (d :: 46 :: t)%N g k).
Proof.
  intros Hd Hk. unfold item_end, numbered_marker, spaces.
  rewrite rmatch_ahead, rmatch_alt, !rmatch_cat.
  cbn [rmatch rep_greedy cmatch more less pred andb]. rewrite Hd.
  change (is_digit 46) with false.
  cbn [andb N.eqb Pos.eqb or_else].
  destruct (rep_greedy_always CSpace None t (fun _ : list N => Some g))
    as [g1 Hg1]; [by eexists|].
  rewrite Hg1. simpl. apply Hk.
Qed.

Lemma stripped_forall (P : list N -> Prop) matches :
  (forall m, m ∈ matches -> P (strip m)) -> Forall P (stripped matches).
Proof.
  intros H. unfold stripped. apply Forall_fmap, Forall_forall.
  intros m [_ Hm]%list_elem_of_filter. simpl. by apply H.
Qed.

Lemma numbered_item s m (P : list N -> Prop) :
  (forall t, P t ->
     forall (A : Type) g (k : list N -> option (list N) -> option A),
       (forall s' g', is_Some (k s' g')) ->
       is_Some (rmatch (item_end numbered_marker) t g k)) ->
  m ∈ findall true numbered_pattern s ->
  occurs_in m s
  /\ exists rest, forall x1 x2, m = x1 ++ x2 -> x2 <> [] -> ~ P (x2 ++ rest).
Proof. intros HP. by apply item_no_trigger. Qed.

Lemma bullet_item s m (P : list N -> Prop) :
  (forall t, P t ->
     forall (A : Type) g (k : list N -> option (list N) -> option A),
       (forall s' g', is_Some (k s' g')) ->
       is_Some (rmatch (item_end bullet_marker) t g k)) ->
  m ∈ findall true bullet_pattern s ->
  occurs_in m s
  /\ exists rest, forall x1 x2, m = x1 ++ x2 -> x2 <> [] -> ~ P (x2 ++ rest).
Proof. intros HP. by apply item_no_trigger. Qed.

(** X14: every recommendation is a run of neighbouring code points of the
    text: the parser copies, it never makes text up. *)
Theorem recommendations_verbatim (s : list N) :
  exists l : list (list N),
    extract_recommendations s = PyList l
    /\ Forall (fun r => occurs_in r s) l.
Proof.
  exists (recommendations_of s). split; [apply extract_recommendations_str|].
  apply Forall_take, Forall_app. split; apply stripped_forall; intros m Hm.
  - apply (numbered_item _ _ (fun _ => False)) in Hm as [Hm _]; [|done].
    eapply occurs_in_trans; [apply strip_occurs | done].
  - apply (bullet_item _ _ (fun _ => False)) in Hm as [Hm _]; [|done].
    eapply occurs_in_trans; [apply strip_occurs | done].
Qed.

Lemma item_without (P : list N -> Prop) (w m rest : list N) :
  w <> [] ->
  (forall a, P (w ++ a)) ->
  (forall x1 x2, m = x1 ++ x2 -> x2 <> [] -> ~ P (x2 ++ rest)) ->
  ~ occurs_in w (strip m).
Proof.
  intros Hw HP Hleast Hocc.
  destruct (occurs_in_trans _ _ _ Hocc (strip_occurs m)) as (b & a & ->).
  apply (Hleast b (w ++ a) eq_refl).
  - destruct w; [done | discriminate].
  - rewrite <- app_assoc. apply HP.
Qed.

(** X15: no recommendation holds an empty line: both list patterns end an
    item at two line feeds in a row. *)
Theorem recommendations_no_blank_line (s : list N) :
  exists l : list (list N),
    extract_recommendations s = PyList l
    /\ Forall (fun r => ~ occurs_in [10%N; 10%N] r) l.
Proof.
  exists (recommendations_of s). split; [apply extract_recommendations_str|].
  set (P := fun t : list N => exists t', t = (10 :: 10 :: t')%N).
  apply Forall_take, Forall_app. split; apply stripped_forall; intros m Hm.
  - apply (numbered_item _ _ P) in Hm as [_ [rest Hleast]].
    + apply (item_without P _ _ rest); [done | | done]. intros a. by exists a.
    + intros t [t' ->] A g k Hk. by apply blank_line_ends_item.
  - apply (bullet_item _ _ P) in Hm as [_ [rest Hleast]].
    + apply (item_without P _ _ rest); [done | | done]. intros a. by exists a.
    + intros t [t' ->] A g k Hk. by apply blank_line_ends_item.
Qed.

(** X16: the recommendations are numbered items followed by bullet items, and
    an item ends where the next marker could begin: a numbered item holds
    no digit with a full stop right after it (a version number such as
    2.0 cuts the item), and a bullet item holds no hyphen, asterisk or
    bullet sign at all (a hyphenated word cuts the item). *)
Theorem recommendations_item_boundaries (s : list N) :
  exists numbered bullets : list (list N),
    extract_recommendations s = PyList (take 10 (numbered ++ bullets))
    /\ Forall (fun r => forall d, is_digit d = true ->
                          ~ occurs_in [d; 46%N] r) numbered
    /\ Forall (fun r => Forall (fun c => is_bullet c = false) r) bullets.
Proof.
  exists (stripped (findall true numbered_pattern s)),
         (stripped (findall true bullet_pattern s)).
  split; [apply extract_recommendations_str|].
  set (P := fun t : list N =>
              exists d' t', t = (d' :: 46 :: t')%N /\ is_digit d' = true).
  set (Q := fun t : list N =>
              exists c t', t = c :: t' /\ is_bullet c = true).
  split; apply stripped_forall; intros m Hm.
  - intros d Hd.
    apply (numbered_item _ _ P) in Hm as [_ [rest Hleast]].
    + apply (item_without P _ _ rest); [done | | done].
      intros a. by exists d, a.
    + intros t (d' & t' & -> & Hd') A g k Hk. by apply numbered_marker_ends_item.
  - apply (bullet_item _ _ Q) in Hm as [_ [rest Hleast]].
    + apply Forall_forall. intros c Hc.
      destruct (is_bullet c) eqn:E; [exfalso | done].
      apply list_elem_of_split in Hc as (b & a & Hc).
      apply (item_without Q [c] m rest); [done | | done |].
      * intros a'. by exists c, a'.
      * exists b, a. by rewrite Hc.
    + intros t (c & t' & -> & Hc) A g k Hk. by apply bullet_ends_item.
Qed.

(** *** The score is read off the text *)

Lemma group_first tail s mo :
  has_group tail = false ->
  match_here (Cat (Grp digits_1_3) tail) s = Some mo ->
  exists x, m_group mo = Some x /\ occurs_in x s
    /\ Forall (fun c => is_digit c = true) x
    /\ (1 <= length x <= 3)%nat.
Proof.
  intros Ht. unfold match_here, digits_1_3. rewrite rmatch_cat. cbn [rmatch].
  intros (x & rest & -> & Hk & Hx & Hlo & Hhi)%rep_greedy_consumed.
  rewrite consumed_app in Hk.
  apply rmatch_keeps_group in Hk as (s' & [= <-] & _); [|done].
  exists x. split; [done|]. split; [by exists [], rest|]. split; [done|].
  specialize (Hhi 3%nat eq_refl). lia.
Qed.

Lemma group_last r1 r2 r3 s mo :
  match_here (Cat r1 (Cat r2 (Cat r3 (Grp digits_1_3)))) s = Some mo ->
  exists x, m_group mo = Some x /\ occurs_in x s
    /\ Forall (fun c => is_digit c = true) x
    /\ (1 <= length x <= 3)%nat.
Proof.
  unfold match_here, digits_1_3. rewrite rmatch_cat.
  intros (s1 & g1 & H & [p1 ->] & _)%rmatch_calls.
  rewrite rmatch_cat in H.
  apply rmatch_calls in H as (s2 & g2 & H & [p2 ->] & _).
  rewrite rmatch_cat in H.
  apply rmatch_calls in H as (s3 & g3 & H & [p3 ->] & _).
  cbn [rmatch] in H.
  apply rep_greedy_consumed in H as (x & rest & -> & Hk & Hx & Hlo & Hhi).
  rewrite consumed_app in Hk. injection Hk as <-.
  exists x. split; [done|]. split.
  - exists (p1 ++ p2 ++ p3), rest. by rewrite <- !app_assoc.
  - split; [done|]. specialize (Hhi 3%nat eq_refl). lia.
Qed.

Lemma score_pattern_group p s mo :
  p ∈ score_patterns ->
  match_here p s = Some mo ->
  exists x, m_group mo = Some x /\ occurs_in x s
    /\ Forall (fun c => is_digit c = true) x
    /\ (1 <= length x <= 3)%nat.
Proof.
  unfold score_patterns. intros Hp.
  repeat (apply elem_of_cons in Hp as [-> | Hp]);
    [by apply group_first | by apply group_first
    | apply group_last | apply group_last | apply group_last
    | by apply elem_of_nil in Hp].
Qed.

Lemma first_number_occurs p s z :
  p ∈ score_patterns ->
  first_number p s = Some z ->
  exists x, occurs_in x s
    /\ Forall (fun c => is_digit c = true) x
    /\ (1 <= length x <= 3)%nat
    /\ int_of_str x = Ok z.
Proof.
  intros Hp. unfold first_number.
  destruct (search p s) as [mo|] eqn:E; [|done].
  apply search_found in E as (before & Hs & Hmo).
  apply (score_pattern_group _ _ _ Hp) in Hmo as (x & Hg & Hocc & Hx & Hlen).
  rewrite Hg. simpl. destruct (int_of_str x) as [z'|] eqn:Ez; [|done].
  intros [= ->]. exists x. split; [|done].
  eapply occurs_in_trans; [exact Hocc|]. exists before, []. by rewrite app_nil_r.
Qed.

Lemma score_by_priority_found patterns s :
  score_by_priority patterns s = 0%Z
  \/ exists p, p ∈ patterns
       /\ first_number p s = Some (score_by_priority patterns s).
Proof.
  induction patterns as [|p later IH]; simpl; [by left|].
  destruct (first_number p s) as [z|] eqn:E.
  - destruct (in_range z).
    + right. exists p. split; [left | done].
    + destruct IH as [IH | (q & Hq & IH)]; [by left|].
      right. exists q. split; [by right | done].
  - destruct IH as [IH | (q & Hq & IH)]; [by left|].
    right. exists q. split; [by right | done].
Qed.

(** X13: a score other than 0 is written in the text: it is the value of a run
    of one to three decimal digits of the text.  A text without a decimal
    digit therefore gets the score 0. *)
Theorem score_read_off_the_text (s : list N) :
  (exists z, extract_score s = PyInt z
     /\ (z = 0%Z
         \/ exists x, occurs_in x s
              /\ Forall (fun c => is_digit c = true) x
              /\ (1 <= length x <= 3)%nat
              /\ int_of_str x = Ok z))
  /\ (Forall (fun c => is_digit c = false) s -> extract_score s = PyInt 0).
Proof.
  assert (H : score_by_priority score_patterns s = 0%Z
              \/ exists x, occurs_in x s
                   /\ Forall (fun c => is_digit c = true) x
                   /\ (1 <= length x <= 3)%nat
                   /\ int_of_str x = Ok (score_by_priority score_patterns s)).
  { destruct (score_by_priority_found score_patterns s) as [H | (p & Hp & H)];
      [by left | right]. by eapply first_number_occurs. }
  split.
  - exists (score_by_priority score_patterns s).
    split; [apply extract_score_str | exact H].
  - intros Hs. rewrite extract_score_str. f_equal.
    destruct H as [H | (x & (b & a & ->) & Hx & Hlen & _)]; [done|].
    destruct x as [|c x]; [simpl in Hlen; lia|].
    apply Forall_app in Hs as [_ Hs]. simpl in Hs.
    apply Forall_cons in Hs as [Hc _]. apply Forall_cons in Hx as [Hc' _].
    congruence.
Qed.

Lemma score_read_off_the_text_witness :
  Forall (fun c => is_digit c = false) (codes "Looks fine, score: high")
  /\ extract_score (codes "Looks fine, score: high") = PyInt 0.
Proof.
  assert (H : Forall (fun c => is_digit c = false)
                (codes "Looks fine, score: high")) by (repeat constructor).
  split; [exact H | exact (proj2 (score_read_off_the_text _) H)].
Defined.

(** ** Further properties of src/main.py *)

(** *** [split] and [rstrip] *)

Lemma split_nonempty sep s : split sep s <> [].
Proof.
  destruct s as [|c s]; simpl; [done|].
  destruct (c =? sep)%N; [done|]. by destruct (split sep s).
Qed.

Lemma split_no_sep sep a :
  Forall (fun c => c <> sep) a -> split sep a = [a].
Proof.
  induction 1 as [|c a Hc _ IH]; simpl; [done|].
  apply N.eqb_neq in Hc. by rewrite Hc, IH.
Qed.

Lemma split_app sep a b :
  Forall (fun c => c <> sep) a ->
  split sep (a ++ sep :: b) = a :: split sep b.
Proof.
  induction 1 as [|c a Hc _ IH]; simpl.
  - by rewrite N.eqb_refl.
  - apply N.eqb_neq in Hc. by rewrite Hc, IH.
Qed.

Lemma split_parts sep s :
  Forall (fun part => Forall (fun c => c <> sep) part) (split sep s).
Proof.
  induction s as [|c s IH]; simpl; [by repeat constructor|].
  destruct (N.eqb_spec c sep) as [->|Hc]; [by constructor|].
  destruct (split sep s) as [|part parts]; [by repeat constructor|].
  apply Forall_cons in IH as [Hpart Hparts]. by repeat constructor.
Qed.

Lemma rstrip_char_snoc ch s : rstrip_char ch (s ++ [ch]) = rstrip_char ch s.
Proof.
  unfold rstrip_char. rewrite rev_app_distr. simpl. by rewrite N.eqb_refl.
Qed.

Lemma rstrip_char_slashes ch s n :
  rstrip_char ch (s ++ replicate n ch) = rstrip_char ch s.
Proof.
  induction n as [|n IH]; simpl; [by rewrite app_nil_r|].
  replace (s ++ ch :: replicate n ch) with ((s ++ replicate n ch) ++ [ch]).
  - by rewrite rstrip_char_snoc.
  - rewrite <- app_assoc. f_equal. clear IH.
    induction n as [|n IH]; simpl; [done | by rewrite IH].
Qed.

Lemma rstrip_char_keeps ch t c :
  c <> ch -> rstrip_char ch (t ++ [c]) = t ++ [c].
Proof.
  intros Hc. unfold rstrip_char. rewrite rev_app_distr. simpl.
  apply N.eqb_neq in Hc. rewrite Hc. simpl. by rewrite rev_involutive.
Qed.

Lemma item_elem {A : Type} (l : list A) i a : item l i = Done a -> a ∈ l.
Proof.
  unfold item.
  destruct ((0 <=? _)%Z && _); [|done].
  destruct (l !! _) eqn:E; [|done].
  intros [= <-]. by eapply list_elem_of_lookup_2.
Qed.

Lemma github_index rest :
  index_of (codes "github.com")
    (codes "https:" :: [] :: codes "github.com" :: rest) = Some 2%nat.
Proof. reflexivity. Qed.

(** *** [extract_repo_info] *)

(** X1: the usual form of a repository URL is taken apart into its owner and
    its name, whatever number of slashes ends it. *)
Theorem extract_repo_info_github (owner repo : list N) (n : nat) :
  Forall (fun c => c <> 47%N) owner ->
  Forall (fun c => c <> 47%N) repo ->
  repo <> [] ->
  extract_repo_info
    (codes "https://github.com/" ++ owner ++ [47%N] ++ repo
       ++ replicate n 47%N)
  = Done (owner, repo).
Proof.
  intros Ho Hr Hne. unfold extract_repo_info.
  replace (codes "https://github.com/" ++ owner ++ [47%N] ++ repo
             ++ replicate n 47%N)
    with ((codes "https://github.com/" ++ owner ++ [47%N] ++ repo)
            ++ replicate n 47%N) by (by rewrite <- !app_assoc).
  rewrite rstrip_char_slashes.
  assert (Hkeep : rstrip_char 47
            (codes "https://github.com/" ++ owner ++ [47%N] ++ repo)
          = codes "https:" ++ 47%N :: [] ++ 47%N :: codes "github.com"
              ++ 47%N :: owner ++ 47%N :: repo).
  { destruct repo as [|c t] using rev_ind; [done|].
    apply Forall_app in Hr as [_ Hc]. apply Forall_cons in Hc as [Hc _].
    replace (codes "https://github.com/" ++ owner ++ [47%N] ++ t ++ [c])
      with ((codes "https://github.com/" ++ owner ++ [47%N] ++ t) ++ [c])
      by (by rewrite <- !app_assoc).
    rewrite rstrip_char_keeps by done. by rewrite <- !app_assoc. }
  rewrite Hkeep.
  rewrite !split_app, (split_no_sep _ repo) by (done || by repeat constructor).
  rewrite github_index. reflexivity.
Qed.

Lemma extract_repo_info_github_witness :
  extract_repo_info (codes "https://github.com/octocat/Hello-World//")
  = Done (codes "octocat", codes "Hello-World").
Proof.
  apply (extract_repo_info_github (codes "octocat") (codes "Hello-World") 2);
    [by repeat constructor | by repeat constructor | done].
Defined.

Lemma repo_names_no_slash (repo_url owner repo : list N) :
  extract_repo_info repo_url = Done (owner, repo) ->
  Forall (fun c => c <> 47%N) owner /\ Forall (fun c => c <> 47%N) repo.
Proof.
  unfold extract_repo_info.
  destruct (index_of _ _) as [i|]; [|done].
  destruct (_ <=? _)%Z; [done|].
  destruct (item _ (Z.of_nat i + 1)) as [o|] eqn:Eo; [|done].
  destruct (item _ (Z.of_nat i + 1 + 1)) as [r|] eqn:Er; [|done].
  intros [= <- <-].
  pose proof (split_parts 47 (rstrip_char 47 repo_url)) as Hparts.
  rewrite Forall_forall in Hparts.
  split; apply Hparts; by eapply item_elem.
Qed.

(** X2: neither name that [extract_repo_info] returns holds a slash. *)
Theorem extract_repo_info_no_slash (repo_url owner repo : list N) :
  extract_repo_info repo_url = Done (owner, repo) ->
  Forall (fun c => c <> 47%N) owner /\ Forall (fun c => c <> 47%N) repo.
Proof. exact (repo_names_no_slash repo_url owner repo). Qed.

Lemma extract_repo_info_no_slash_witness :
  extract_repo_info (codes "https://github.com/octocat/Hello-World/tree/main")
    = Done (codes "octocat", codes "Hello-World")
  /\ Forall (fun c => c <> 47%N) (codes "octocat")
  /\ Forall (fun c => c <> 47%N) (codes "Hello-World").
Proof.
  assert (H : extract_repo_info
                (codes "https://github.com/octocat/Hello-World/tree/main")
              = Done (codes "octocat", codes "Hello-World"))
    by (vm_compute; reflexivity).
  split; [exact H | exact (extract_repo_info_no_slash _ _ _ H)].
Defined.

(** X3: a slash at the end of the URL changes nothing. *)
Theorem extract_repo_info_trailing_slash (repo_url : list N) :
  extract_repo_info (repo_url ++ [47%N]) = extract_repo_info repo_url.
Proof. unfold extract_repo_info. by rewrite rstrip_char_snoc. Qed.

(** X4: [analyze_github_repo] hands "owner/name" to [fetch_github_repo_data],
    which takes it apart again: it finds the same owner and name, unless
    the name is empty, in which case it raises (and reports an error
    dictionary). *)
Theorem owner_and_repo_round_trip (repo_url owner repo : list N) :
  extract_repo_info repo_url = Done (owner, repo) ->
  (repo <> [] -> owner_and_repo (owner ++ [47%N] ++ repo) = Ok (owner, repo))
  /\ (repo = [] -> exists e, owner_and_repo (owner ++ [47%N] ++ repo) = Raise e).
Proof.
  intros [Ho Hr]%repo_names_no_slash. split.
  - intros Hne. unfold owner_and_repo.
    destruct repo as [|c t] using rev_ind; [done|].
    pose proof Hr as Hr'. apply Forall_app in Hr' as [_ Hc].
    apply Forall_cons in Hc as [Hc _].
    replace (owner ++ [47%N] ++ t ++ [c]) with ((owner ++ [47%N] ++ t) ++ [c])
      by (by rewrite <- !app_assoc).
    rewrite rstrip_char_keeps by done.
    replace ((owner ++ [47%N] ++ t) ++ [c]) with (owner ++ 47%N :: (t ++ [c]))
      by (by rewrite <- !app_assoc).
    by rewrite split_app, split_no_sep.
  - intros ->. unfold owner_and_repo. simpl.
    rewrite rstrip_char_snoc.
    assert (Hsub : forall w, Forall (fun c => c <> 47%N) w ->
              Forall (fun c => c <> 47%N) (rstrip_char 47 w)).
    { intros w Hw. unfold rstrip_char.
      assert (Hl : forall v, Forall (fun c => c <> 47%N) v ->
                Forall (fun c => c <> 47%N) (lstrip_char 47 v)).
      { induction 1 as [|c v Hc Hv IH]; simpl; [done|].
        destruct (c =? 47)%N; [done | by constructor]. }
      rewrite <- (rev_involutive w) in Hw.
      apply Forall_forall. intros c Hc. apply list_elem_of_In, in_rev in Hc.
      apply list_elem_of_In in Hc.
      assert (Hrev : Forall (fun c => c <> 47%N) (rev w)).
      { apply Forall_forall. intros d Hd. rewrite Forall_forall in Hw.
        apply Hw. apply list_elem_of_In, in_rev. rewrite rev_involutive.
        by apply list_elem_of_In. }
      specialize (Hl _ Hrev). rewrite Forall_forall in Hl. by apply Hl. }
    rewrite split_no_sep by (by apply Hsub). by eexists.
Qed.

Lemma owner_and_repo_round_trip_witness :
  extract_repo_info (codes "https://github.com/octocat/Hello-World")
    = Done (codes "octocat", codes "Hello-World")
  /\ owner_and_repo (codes "octocat" ++ [47%N] ++ codes "Hello-World")
     = Ok (codes "octocat", codes "Hello-World").
Proof.
  assert (H : extract_repo_info (codes "https://github.com/octocat/Hello-World")
              = Done (codes "octocat", codes "Hello-World"))
    by (vm_compute; reflexivity).
  split; [exact H|].
  apply (proj1 (owner_and_repo_round_trip _ _ _ H)). discriminate.
Defined.

(** *** [generate_recommendations] and [analyze_code_quality] *)

Lemma pick_from_table :
  forallb (fun seed =>
    match pick_from seed (List.seq 0 5) with
    | Done l =>
        Nat.eqb (length l) 5
        && bool_decide (NoDup l)
        && forallb (fun r => bool_decide (r ∈ generic_recommendations)
                             && negb (bool_decide (r = []))) l
    | Failed _ => false
    end) (seqZ 0 100) = true.
Proof. vm_compute. reflexivity. Qed.

Lemma pick_five (hash : list N -> Z)
    (repo_path repo_url : list N) :
  exists l : list (list N),
    generate_recommendations hash repo_path repo_url = Done l
    /\ length l = 5%nat
    /\ NoDup l
    /\ Forall (fun r => r ∈ generic_recommendations /\ r <> []) l.
Proof.
  unfold generate_recommendations.
  pose proof pick_from_table as H. rewrite forallb_forall in H.
  assert (Hin : In (hash repo_path mod 100)%Z (seqZ 0 100)).
  { apply list_elem_of_In, elem_of_seqZ.
    pose proof (Z.mod_pos_bound (hash repo_path) 100 eq_refl). lia. }
  specialize (H _ Hin).
  destruct (pick_from (hash repo_path mod 100) (List.seq 0 5)) as [l|];
    [|discriminate].
  exists l. split; [done|].
  apply andb_true_iff in H as [H Hall]. apply andb_true_iff in H as [Hlen Hnd].
  split; [by apply Nat.eqb_eq|]. split; [by apply bool_decide_eq_true in Hnd|].
  apply Forall_forall. intros r Hr. rewrite forallb_forall in Hall.
  specialize (Hall r (proj1 (list_elem_of_In _ _) Hr)).
  apply andb_true_iff in Hall as [H1 H2].
  split; [by apply bool_decide_eq_true in H1|].
  apply negb_true_iff, bool_decide_eq_false in H2. done.
Qed.

(** X5: the basic recommendations are always five different entries of the
    generic list; the indexing never leaves the list. *)
Theorem generate_recommendations_five (hash : list N -> Z)
    (repo_path repo_url : list N) :
  exists l : list (list N),
    generate_recommendations hash repo_path repo_url = Done l
    /\ length l = 5%nat
    /\ NoDup l
    /\ Forall (fun r => r ∈ generic_recommendations /\ r <> []) l.
Proof. exact (pick_five hash repo_path repo_url). Qed.

Lemma bugs_range (hash : list N -> Z)
    (repo_path file_counts_str : list N) :
  (0 <= bugs_found (analyze_code_quality hash repo_path file_counts_str) <= 9)%Z.
Proof.
  simpl. pose proof (Z.mod_pos_bound (hash repo_path) 10 eq_refl). lia.
Qed.

(** X6: [bugs_found] is one of 0..9. *)
Theorem bugs_found_range (hash : list N -> Z)
    (repo_path file_counts_str : list N) :
  (0 <= bugs_found (analyze_code_quality hash repo_path file_counts_str) <= 9)%Z.
Proof. exact (bugs_range hash repo_path file_counts_str). Qed.

(** *** [analyze_with_ai] *)

Lemma parse_ai_response_not_str v :
  (forall s, v <> PyStr s) ->
  parse_ai_response v =
    error_result
      (TypeError (codes "expected string or bytes-like object, got '"
                    ++ type_name v ++ codes "'")) v.
Proof.
  intros Hv. unfold parse_ai_response. by rewrite parse_body_not_str.
Qed.

(** What [analyze_with_ai] returns is either an error dictionary, with a
    message and no recommendations, or the parse of a text. *)
Lemma analyze_with_ai_shape api_key call :
  (exists msg, msg <> []
     /\ analyze_with_ai api_key call !! "error"%string = Some (PyStr msg)
     /\ analyze_with_ai api_key call !! "recommendations"%string
        = Some (PyList [])
     /\ analyze_with_ai api_key call !! "overall_score"%string
        ∈ [None; Some (PyInt 0)]
     /\ (truthy api_key = false \/ forall s, call <> CallResponse 200 (PyStr s)))
  \/ (exists s, truthy api_key = true /\ call = CallResponse 200 (PyStr s)
        /\ analyze_with_ai api_key call = result_of s).
Proof.
  unfold analyze_with_ai. destruct (truthy api_key) eqn:Hk; simpl.
  - destruct call as [msg | status_code ai_content].
    + left. eexists. repeat split; [done | set_solver | by right].
    + destruct (Z.eqb_spec status_code 200) as [->|Hs]; simpl.
      * destruct ai_content as [| z | s | l].
        -- left. eexists. repeat split; [done | set_solver | by right].
        -- left. eexists. repeat split; [done | set_solver | by right].
        -- right. exists s. by rewrite parse_ai_response_str.
        -- left. eexists. repeat split; [done | set_solver | by right].
      * left. eexists. repeat split; [done | set_solver |].
        right. intros s [= ? _]. done.
  - left. eexists. repeat split; [done | set_solver | by left].
Qed.

(** X7: whatever happens to the call, [analyze_with_ai] returns a dictionary
    whose [recommendations] is a list of at most ten entries. *)
Theorem analyze_with_ai_recommendations (api_key : pyval) (call : ai_call) :
  exists l : list (list N),
    analyze_with_ai api_key call !! "recommendations"%string = Some (PyList l)
    /\ (length l <= 10)%nat.
Proof.
  destruct (analyze_with_ai_shape api_key call)
    as [(msg & _ & _ & Hr & _) | (s & _ & _ & ->)].
  - exists []. split; [done | simpl; lia].
  - exists (recommendations_of s). split; [done|].
    unfold recommendations_of. rewrite length_take. lia.
Qed.

(** X8: the dictionary has no [error] exactly when a key is set and the call
    came back with status 200 and a text; it is then the parse of that
    text.  An [error], when there is one, is a message that counts as
    true, and the recommendations are empty. *)
Theorem analyze_with_ai_error (api_key : pyval) (call : ai_call) :
  (analyze_with_ai api_key call !! "error"%string = None
   <-> truthy api_key = true /\ exists s, call = CallResponse 200 (PyStr s))
  /\ (forall v, analyze_with_ai api_key call !! "error"%string = Some v ->
        truthy v = true
        /\ analyze_with_ai api_key call !! "recommendations"%string
           = Some (PyList [])).
Proof.
  destruct (analyze_with_ai_shape api_key call)
    as [(msg & Hmsg & He & Hr & _ & Hwhy) | (s & Hk & Hc & Hd)].
  - split.
    + split; [by rewrite He|]. intros [Hk [s Hs]].
      destruct Hwhy as [Hwhy | Hwhy]; [congruence | by destruct (Hwhy s)].
    + intros v Hv. rewrite He in Hv. injection Hv as <-.
      split; [by destruct msg | done].
  - split.
    + split; [by eauto|]. intros _. by rewrite Hd.
    + intros v Hv. by rewrite Hd in Hv.
Qed.

(** *** [analyze_github_repo] *)

Lemma blend_table :
  forallb (fun z =>
    forallb (fun q =>
      match weighted_average z q with
      | Ok w => (23 <=? w)%Z && (w <=? 98)%Z
      | Raise _ => false
      end) (seqZ 75 20)) (seqZ 1 100) = true.
Proof. vm_compute. reflexivity. Qed.

Lemma blend_range z q :
  (1 <= z <= 100)%Z -> (75 <= q <= 94)%Z ->
  exists w, weighted_average z q = Ok w /\ (23 <= w <= 98)%Z.
Proof.
  intros Hz Hq. pose proof blend_table as H. rewrite forallb_forall in H.
  assert (Hin : In z (seqZ 1 100)) by (apply list_elem_of_In, elem_of_seqZ; lia).
  specialize (H z Hin). rewrite forallb_forall in H.
  assert (Hin' : In q (seqZ 75 20)) by (apply list_elem_of_In, elem_of_seqZ; lia).
  specialize (H q Hin').
  destruct (weighted_average z q) as [w|]; [|discriminate].
  exists w. split; [done|]. apply andb_true_iff in H as [H1 H2]. lia.
Qed.

Lemma code_quality_range (hash : list N -> Z) repo_path file_counts_str :
  (75 <= code_quality (analyze_code_quality hash repo_path file_counts_str)
   <= 94)%Z.
Proof.
  simpl. pose proof (Z.mod_pos_bound (hash file_counts_str) 20 eq_refl). lia.
Qed.

(** The blended score of a parsed text: defined, and within 23..98. *)
Lemma blended_result_of api_key s q :
  (75 <= q <= 94)%Z ->
  exists w, blended_code_quality api_key (result_of s) q = Ok w
    /\ (23 <= w <= 98)%Z.
Proof.
  intros Hq.
  rewrite (blended_code_quality_cases _ _ _ (score_by_priority score_patterns s))
    by done.
  pose proof (score_by_priority_range score_patterns s) as Hz.
  destruct (truthy api_key && _ && _ && (0 <? _)%Z) eqn:E.
  - apply andb_true_iff in E as [_ E]. apply Z.ltb_lt in E.
    apply blend_range; lia.
  - exists q. split; [done | lia].
Qed.

Section Orchestration.
Variable hash : list N -> Z.
Variable http_exception_str : Z -> list N -> list N.
Variables (api_key : pyval) (repo_url repo_path file_counts_str : list N).
Variable call : ai_call.

Lemma report_fallback (names : list N * list N) :
  extract_repo_info repo_url = Done names ->
  truthy api_key = false \/ (forall s, call <> CallResponse 200 (PyStr s)) ->
  exists basic,
    generate_recommendations hash repo_path repo_url = Done basic
    /\ analyze_github_repo hash http_exception_str api_key repo_url
         (Done repo_path) file_counts_str call
       = Done (Report repo_url
                 (code_quality
                    (analyze_code_quality hash repo_path file_counts_str))
                 (bugs_found
                    (analyze_code_quality hash repo_path file_counts_str))
                 (PyList basic) generic_details
                 (if truthy api_key then Some (analyze_with_ai api_key call)
                  else None)).
Proof.
  intros Hurl Hwhy.
  destruct (pick_five hash repo_path repo_url)
    as (basic & Hb & _).
  exists basic. split; [done|].
  unfold analyze_github_repo. rewrite Hurl. cbn [mbind attempt_bind].
  rewrite Hb. cbn [mbind attempt_bind].
  destruct (truthy api_key) eqn:Hk; [|done].
  destruct (analyze_with_ai_shape api_key call)
    as [(msg & Hmsg & He & _) | (s & _ & Hc & _)].
  - set (d := analyze_with_ai api_key call) in *.
    assert (Hget : truthy (get d "error") = true).
    { unfold get. rewrite He. simpl. by destruct msg. }
    unfold blended_code_quality, ai_succeeded. rewrite Hk, Hget.
    rewrite !andb_false_r. simpl. done.
  - destruct Hwhy as [Hwhy | Hwhy]; [done | by destruct (Hwhy s)].
Qed.

(** X9: when no key is set, or the call did not come back with status 200
    and a text, the report is the basic one: the fallback score, the five
    basic recommendations and the generic details. *)
Theorem analyze_github_repo_fallback (names : list N * list N) :
  extract_repo_info repo_url = Done names ->
  truthy api_key = false \/ (forall s, call <> CallResponse 200 (PyStr s)) ->
  exists basic,
    generate_recommendations hash repo_path repo_url = Done basic
    /\ analyze_github_repo hash http_exception_str api_key repo_url
         (Done repo_path) file_counts_str call
       = Done (Report repo_url
                 (code_quality
                    (analyze_code_quality hash repo_path file_counts_str))
                 (bugs_found
                    (analyze_code_quality hash repo_path file_counts_str))
                 (PyList basic) generic_details
                 (if truthy api_key then Some (analyze_with_ai api_key call)
                  else None)).
Proof. exact (report_fallback names). Qed.

Lemma report_with_ai (names : list N * list N) (s : list N) :
  extract_repo_info repo_url = Done names ->
  truthy api_key = true ->
  call = CallResponse 200 (PyStr s) ->
  exists basic r,
    generate_recommendations hash repo_path repo_url = Done basic
    /\ analyze_github_repo hash http_exception_str api_key repo_url
         (Done repo_path) file_counts_str call = Done r
    /\ repository_url r = repo_url
    /\ report_bugs_found r
       = bugs_found (analyze_code_quality hash repo_path file_counts_str)
    /\ ai_analysis r = Some (parse_ai_response (PyStr s))
    /\ blended_code_quality api_key (parse_ai_response (PyStr s))
         (code_quality (analyze_code_quality hash repo_path file_counts_str))
       = Ok (report_code_quality r)
    /\ recommendations r
       = (if truthy (extract_recommendations s) then extract_recommendations s
          else PyList basic)
    /\ details r !! "code_structure"%string
       = Some (extract_section "architecture_analysis" s)
    /\ details r !! "performance"%string
       = Some (extract_section "performance_analysis" s)
    /\ details r !! "security"%string
       = Some (extract_section "security_analysis" s)
    /\ details r !! "best_practices"%string
       = Some (extract_section "best_practices_analysis" s).
Proof.
  intros Hurl Hk ->.
  destruct (pick_five hash repo_path repo_url)
    as (basic & Hb & _).
  destruct (blended_result_of api_key s
              (code_quality (analyze_code_quality hash repo_path file_counts_str)))
    as (w & Hw & _); [apply code_quality_range|].
  exists basic. eexists. split; [done|].
  unfold analyze_github_repo. rewrite Hurl. cbn [mbind attempt_bind].
  rewrite Hb. cbn [mbind attempt_bind]. rewrite Hk.
  assert (Hd : analyze_with_ai api_key (CallResponse 200 (PyStr s))
               = result_of s).
  { unfold analyze_with_ai. rewrite Hk. simpl. apply parse_ai_response_str. }
  rewrite Hd. rewrite Hw. cbn [lift mbind attempt_bind].
  split; [reflexivity|].
  cbn [repository_url report_bugs_found ai_analysis report_code_quality
       recommendations details].
  split; [done|]. split; [done|].
  rewrite parse_ai_response_str. split; [done|]. split; [done|].
  unfold extract_recommendations, extract_section. rewrite parse_ai_response_str.
  split; [|by repeat split].
  by destruct (recommendations_of s).
Qed.


(** X11: once the URL is accepted and the clone is there, a report always
    comes back, whatever the call did: with a score of 23..98, a bug
    count of 0..9, one to ten non-empty recommendations and four details
    that are strings. *)
Theorem analyze_github_repo_report (names : list N * list N) :
  extract_repo_info repo_url = Done names ->
  exists r,
    analyze_github_repo hash http_exception_str api_key repo_url
      (Done repo_path) file_counts_str call = Done r
    /\ repository_url r = repo_url
    /\ (23 <= report_code_quality r <= 98)%Z
    /\ (0 <= report_bugs_found r <= 9)%Z
    /\ (exists l, recommendations r = PyList l
          /\ (1 <= length l <= 10)%nat /\ Forall (fun x => x <> []) l)
    /\ (forall key, key ∈ ["code_structure"; "performance"; "security";
                           "best_practices"]%string ->
          exists t, details r !! key = Some (PyStr t)).
Proof.
  intros Hurl.
  destruct (pick_five hash repo_path repo_url)
    as (basic & Hb & Hlen & _ & Hbasic).
  pose proof (code_quality_range hash repo_path file_counts_str) as Hq.
  pose proof (bugs_range hash repo_path file_counts_str) as Hbugs.
  assert (Hsuccess : truthy api_key = true /\ (exists s, call = CallResponse 200 (PyStr s))
                     \/ (truthy api_key = false
                         \/ forall s, call <> CallResponse 200 (PyStr s))).
  { destruct (analyze_with_ai_shape api_key call)
      as [(_ & _ & _ & _ & _ & Hwhy) | (s & Hk & Hc & _)];
      [by right | left; eauto]. }
  destruct Hsuccess as [[Hk [s Hc]] | Hwhy].
  - destruct (report_with_ai names s Hurl Hk Hc)
      as (basic' & r & Hb' & Hr & Hu & Hbg & _ & Hw & Hrecs & H1 & H2 & H3 & H4).
    rewrite Hb in Hb'. injection Hb' as <-.
    exists r. split; [done|]. split; [done|].
    split. { rewrite parse_ai_response_str in Hw.
             destruct (blended_result_of api_key s _ Hq) as (w & Hw' & Hrange).
             rewrite Hw in Hw'. injection Hw' as ->. done. }
    split; [by rewrite Hbg|].
    split.
    + rewrite Hrecs, extract_recommendations_str.
      destruct (recommendations_of s) as [|x l] eqn:El; simpl.
      * exists basic. split; [done|]. split; [lia|].
        eapply Forall_impl; [exact Hbasic|]. by intros x [_ ?].
      * exists (x :: l). split; [done|]. rewrite <- El. split.
        -- split; [rewrite El; simpl; lia|].
           unfold recommendations_of. rewrite length_take. lia.
        -- unfold recommendations_of. apply Forall_take, Forall_app.
           split; (eapply Forall_impl; [apply stripped_clean|]);
             by intros y [? _].
    + assert (Hstr : forall k, k ∈ sections.*1 ->
                exists t, extract_section k s = PyStr t).
      { intros k Hin. unfold extract_section. rewrite parse_ai_response_str.
        unfold sections in Hin. simpl in Hin.
        repeat (apply elem_of_cons in Hin as [-> | Hin];
                [eexists; reflexivity|]).
        by apply elem_of_nil in Hin. }
      intros key Hkey.
      repeat (apply elem_of_cons in Hkey as [-> | Hkey];
              [match goal with
               | H : details r !! _ = Some (extract_section ?k s) |- _ =>
                   destruct (Hstr k) as [t Ht];
                   [unfold sections; simpl;
                    repeat (first [apply list_elem_of_here
                                  | apply list_elem_of_further])
                   | exists t; by rewrite H, Ht]
               end|]).
      by apply elem_of_nil in Hkey.
  - destruct (report_fallback names Hurl Hwhy)
      as (basic' & Hb' & Hr).
    rewrite Hb in Hb'. injection Hb' as <-.
    eexists. split; [exact Hr|].
    cbn [repository_url report_code_quality report_bugs_found
         recommendations details].
    split; [done|]. split; [lia|]. split; [done|]. split.
    + exists basic. split; [done|]. split; [lia|].
      eapply Forall_impl; [exact Hbasic|]. by intros x [_ ?].
    + intros key Hkey.
      repeat (apply elem_of_cons in Hkey as [-> | Hkey]; [by eexists|]).
      by apply elem_of_nil in Hkey.
Qed.

(** X12: [analyze_github_repo] fails only when the URL is refused or the
    clone fails, and then always with status 500, also when the clone
    failed with an HTTPException of status 400. *)
Theorem analyze_github_repo_failure (clone : attempt (list N)) (e : error) :
  analyze_github_repo hash http_exception_str api_key repo_url clone
    file_counts_str call = Failed e ->
  exists cause,
    (extract_repo_info repo_url = Failed cause
     \/ (exists names, extract_repo_info repo_url = Done names)
        /\ clone = Failed cause)
    /\ e = HTTPException 500
             (codes "Error analyzing repository: "
                ++ error_str http_exception_str cause).
Proof.
  destruct (extract_repo_info repo_url) as [names|cause] eqn:Hurl.
  - destruct clone as [path|cause].
    + clear repo_path.
      intros H. exfalso. revert H.
      unfold analyze_github_repo. rewrite Hurl. cbn [mbind attempt_bind].
      destruct (pick_five hash path repo_url)
        as (basic & Hb & _).
      rewrite Hb. cbn [mbind attempt_bind].
      destruct (truthy api_key) eqn:Hk; [|done].
      destruct (analyze_with_ai_shape api_key call)
        as [(msg & Hmsg & He & _) | (s & _ & _ & Hd)].
      * set (d := analyze_with_ai api_key call) in *.
        assert (Hget : truthy (get d "error") = true).
        { unfold get. rewrite He. simpl. by destruct msg. }
        unfold blended_code_quality. rewrite Hk, Hget.
        rewrite !andb_false_r. simpl. done.
      * rewrite Hd.
        destruct (blended_result_of api_key s
                    (code_quality (analyze_code_quality hash path file_counts_str)))
          as (w & -> & _); [apply code_quality_range | done].
    + unfold analyze_github_repo. rewrite Hurl. cbn [mbind attempt_bind].
      intros [= <-]. exists cause. split; [right; eauto | done].
  - unfold analyze_github_repo. rewrite Hurl. cbn [mbind attempt_bind].
    intros [= <-]. exists cause. split; [by left | done].
Qed.
End Orchestration.

Lemma analyze_github_repo_fallback_witness :
  exists basic,
    generate_recommendations (fun s => Z.of_nat (length s))
      (codes "/tmp/tmpab12") (codes "https://github.com/octocat/Hello-World")
      = Done basic
    /\ analyze_github_repo (fun s => Z.of_nat (length s))
         (fun status detail => str_of_int status ++ codes ": " ++ detail)
         (PyStr (codes "sk-or-v1"))
         (codes "https://github.com/octocat/Hello-World")
         (Done (codes "/tmp/tmpab12")) (codes "{'.py': 3}")
         (CallResponse 503 PyNone)
       = Done (Report (codes "https://github.com/octocat/Hello-World")
                 85 2 (PyList basic) generic_details
                 (Some (error_dict (codes "OpenRouter API error: 503")))).
Proof.
  apply (analyze_github_repo_fallback (fun s => Z.of_nat (length s))
           (fun status detail => str_of_int status ++ codes ": " ++ detail)
           (PyStr (codes "sk-or-v1"))
           (codes "https://github.com/octocat/Hello-World")
           (codes "/tmp/tmpab12") (codes "{'.py': 3}")
           (CallResponse 503 PyNone)
           (codes "octocat", codes "Hello-World")).
  - vm_compute. reflexivity.
  - right. intros s. discriminate.
Defined.


Lemma analyze_github_repo_report_witness :
  exists r,
    analyze_github_repo (fun s => Z.of_nat (length s))
      (fun status detail => str_of_int status ++ codes ": " ++ detail)
      (PyStr (codes "sk-or-v1"))
      (codes "https://github.com/octocat/Hello-World")
      (Done (codes "/tmp/tmpab12")) (codes "{'.py': 3}")
      (CallResponse 200 (PyStr (codes "Score: 80/100. 1. Add tests"))) = Done r
    /\ repository_url r = codes "https://github.com/octocat/Hello-World"
    /\ (23 <= report_code_quality r <= 98)%Z
    /\ (0 <= report_bugs_found r <= 9)%Z
    /\ (exists l, recommendations r = PyList l
          /\ (1 <= length l <= 10)%nat /\ Forall (fun x => x <> []) l)
    /\ (forall key, key ∈ ["code_structure"; "performance"; "security";
                           "best_practices"]%string ->
          exists t, details r !! key = Some (PyStr t)).
Proof.
  apply (analyze_github_repo_report (fun s => Z.of_nat (length s))
           (fun status detail => str_of_int status ++ codes ": " ++ detail)
           (PyStr (codes "sk-or-v1"))
           (codes "https://github.com/octocat/Hello-World")
           (codes "/tmp/tmpab12") (codes "{'.py': 3}")
           (CallResponse 200 (PyStr (codes "Score: 80/100. 1. Add tests")))
           (codes "octocat", codes "Hello-World")).
  vm_compute. reflexivity.
Defined.

(** A clone that failed with status 400 comes out with status 500. *)
Lemma analyze_github_repo_failure_witness :
  exists cause,
    (extract_repo_info (codes "https://github.com/octocat/Hello-World")
       = Failed cause
     \/ (exists names,
           extract_repo_info (codes "https://github.com/octocat/Hello-World")
           = Done names)
        /\ Failed (HTTPException 400 (codes "Failed to clone repository: gone"))
           = @Failed (list N) cause)
    /\ HTTPException 500
         (codes "Error analyzing repository: 400: Failed to clone repository: gone")
       = HTTPException 500
           (codes "Error analyzing repository: "
              ++ error_str
                   (fun status detail => str_of_int status ++ codes ": " ++ detail)
                   cause).
Proof.
  apply (analyze_github_repo_failure (fun s => Z.of_nat (length s))
           (fun status detail => str_of_int status ++ codes ": " ++ detail)
           (PyStr (codes "sk-or-v1"))
           (codes "https://github.com/octocat/Hello-World")
           (codes "{'.py': 3}") (CallRaised (codes "timeout"))
           (Failed (HTTPException 400 (codes "Failed to clone repository: gone")))).
  vm_compute. reflexivity.
Defined.

(** *** The edges of a section text *)

Lemma join_cons_head sep (m : list N) ms :
  exists rest, join sep (m :: ms) = m ++ rest.
Proof.
  destruct ms as [|m' ms]; simpl; [by exists []; rewrite app_nil_r | by eexists].
Qed.

Lemma join_last_part sep (ms : list (list N)) m :
  last ms = Some m -> exists before, join sep ms = before ++ m.
Proof.
  induction ms as [|m0 ms IH]; [done|].
  destruct ms as [|m1 ms].
  - simpl. intros [= ->]. by exists [].
  - intros H. destruct (IH H) as [before Hb].
    exists (m0 ++ sep ++ before).
    change (join sep (m0 :: m1 :: ms)) with (m0 ++ sep ++ join sep (m1 :: ms)).
    by rewrite Hb, <- !app_assoc.
Qed.

(** X17: a section text that is not empty begins with one of the keywords of
    its category, in any case, and ends with [.], [!] or [?]. *)
Theorem section_text_edges (s : list N) (section_key : string)
    (keywords : list (list N)) :
  (section_key, keywords) ∈ sections ->
  exists t, extract_section section_key s = PyStr t
    /\ (t = []
        \/ (exists keyword word rest,
              keyword ∈ keywords /\ t = word ++ rest
              /\ map fold_ascii word = keyword)
           /\ (exists before c, t = before ++ [c] /\ is_terminator c = true)).
Proof.
  intros Hin. exists (section_text keywords s).
  split; [by apply extract_section_str|]. clear Hin.
  induction keywords as [|keyword later IH]; cbn [section_text]; [by left|].
  destruct (excerpts keyword s) as [|m ms] eqn:E.
  - destruct IH as [IH | [(k & w & rest & Hk & Ht & Hw) Hend]]; [by left|].
    right. split; [|done]. exists k, w, rest. split; [by right | done].
  - right. split.
    + assert (Hm : m ∈ excerpts keyword s) by (rewrite E; apply list_elem_of_here).
      apply excerpts_shape in Hm as (w & tail & _ & _ & -> & _ & Hw & _).
      destruct (join_cons_head [32%N] (w ++ tail) ms) as [rest Hj].
      exists keyword, w, (tail ++ rest). split; [apply list_elem_of_here|].
      split; [by rewrite Hj, <- app_assoc | done].
    + destruct (last (m :: ms)) as [m'|] eqn:El;
        [|by apply last_None in El].
      assert (Hm : m' ∈ excerpts keyword s).
      { rewrite E. by eapply last_Some_elem_of. }
      apply excerpts_shape in Hm as (w & tail & _ & _ & -> & _ & _ & Hend & _).
      destruct Hend as (t' & c & -> & Hc).
      destruct (join_last_part [32%N] _ _ El) as [before Hb].
      exists (before ++ w ++ t'), c. split; [|done].
      rewrite Hb. by rewrite <- !app_assoc.
Qed.

Lemma section_text_edges_witness :
  exists t,
    extract_section "security_analysis"
      (codes "Good. SECURITY is weak! Fix it") = PyStr t
    /\ (t = []
        \/ (exists keyword word rest,
              keyword ∈ [codes "security"; codes "vulnerability";
                         codes "risk"; codes "protection"]
              /\ t = word ++ rest /\ map fold_ascii word = keyword)
           /\ (exists before c, t = before ++ [c] /\ is_terminator c = true)).
Proof.
  apply (section_text_edges (codes "Good. SECURITY is weak! Fix it")
           "security_analysis").
  unfold sections. do 2 apply list_elem_of_further. apply list_elem_of_here.
Defined.
